(** * flax.nnx.filterlib: the filter predicate algebra

    A shallow embedding of [flax/nnx/nnx/filterlib.py]: the predicate
    classes [WithTag], [PathContains], [OfType], [Any], [All], [Not],
    [Everything] and [Nothing], the normalizer [to_predicate], their
    [__call__], [__eq__] and [__hash__] methods, and the properties the
    specification states about them. *)

From Stdlib Require Import String Ascii List ZArith Bool Lia Permutation.
Import ListNotations.
Open Scope string_scope.
Set Warnings "-register-all".

(** ** Exceptions and the result of a call that may raise *)

Inductive exception : Type :=
| TypeError (msg : string)
| ValueError (msg : string).

Inductive result (A : Type) : Type :=
| Ok (a : A)
| Raise (e : exception).
Arguments Ok {A} a.
Arguments Raise {A} e.

Definition bind {A B : Type} (r : result A) (k : A -> result B) : result B :=
  match r with
  | Ok a => k a
  | Raise e => Raise e
  end.

Notation "x <- r ;; k" := (bind r (fun x => k))
  (at level 61, r at next level, right associativity).

(** ** Sequences *)

Section TupleEq.
Variable A : Type.
Variable eqb : A -> A -> bool.

(** [==] on tuples, and on lists: same length, equal element by element. *)
Fixpoint tuple_eqb (l r : list A) {struct l} : bool :=
  match l, r with
  | [], [] => true
  | a :: l', b :: r' => eqb a b && tuple_eqb l' r'
  | _, _ => false
  end.
End TupleEq.
Arguments tuple_eqb {A} eqb l r.

(** ** Classes

    A class object carries its name and its direct bases; [object] is the
    root.  A class is identified by its name together with its bases. *)

Inductive pytype : Type :=
| PyClass (name : string) (bases : list pytype).

Definition class_name (C : pytype) : string :=
  match C with PyClass name _ => name end.

Definition class_bases (C : pytype) : list pytype :=
  match C with PyClass _ bases => bases end.

Fixpoint pytype_eqb (C D : pytype) {struct C} : bool :=
  match C, D with
  | PyClass n bs, PyClass m ds =>
      String.eqb n m && tuple_eqb pytype_eqb bs ds
  end.

Definition object_t : pytype := PyClass "object" [].

(** [in_mro C T]: [T] occurs in the method resolution order of [C], that
    is, [T] is [C] or is reached from [C] through direct bases. *)
Fixpoint in_mro (C T : pytype) {struct C} : bool :=
  pytype_eqb C T ||
  match C with
  | PyClass _ bases => existsb (fun B => in_mro B T) bases
  end.

(** The builtin [issubclass(C, T)]; every class derives from [object]. *)
Definition issubclass (C T : pytype) : bool :=
  pytype_eqb T object_t || in_mro C T.

(** The subclass relation, as a relation: reflexive, [object] on top, and
    closed under direct bases. *)
Inductive subclass_of : pytype -> pytype -> Prop :=
| subclass_refl C : subclass_of C C
| subclass_object C : subclass_of C object_t
| subclass_base C B T :
    In B (class_bases C) -> subclass_of B T -> subclass_of C T.

(** The builtin classes the normalizer tests against, and the classes of
    this module. *)
Definition str_t : pytype := PyClass "str" [object_t].
Definition type_t : pytype := PyClass "type" [object_t].
Definition int_t : pytype := PyClass "int" [object_t].
Definition bool_t : pytype := PyClass "bool" [int_t].
Definition list_t : pytype := PyClass "list" [object_t].
Definition tuple_t : pytype := PyClass "tuple" [object_t].
Definition set_t : pytype := PyClass "set" [object_t].
Definition ellipsis_t : pytype := PyClass "ellipsis" [object_t].
Definition NoneType_t : pytype := PyClass "NoneType" [object_t].
Definition function_t : pytype := PyClass "function" [object_t].

Definition WithTag_class : pytype := PyClass "WithTag" [object_t].
Definition PathContains_class : pytype := PyClass "PathContains" [object_t].
Definition OfType_class : pytype := PyClass "OfType" [object_t].
Definition Any_class : pytype := PyClass "Any" [object_t].
Definition All_class : pytype := PyClass "All" [object_t].
Definition Not_class : pytype := PyClass "Not" [object_t].
Definition Everything_class : pytype := PyClass "Everything" [object_t].
Definition Nothing_class : pytype := PyClass "Nothing" [object_t].

(** ** Paths and values

    [Key] and [PathParts] come from [flax.typing]: a path is a tuple of
    keys, a key a string or an integer (a boolean key, which [==] and
    [hash] equate with the integer 0 or 1, is not told apart from that
    integer).  A value is seen through what the
    predicates observe of it: its class, and the optional attributes [tag]
    and [type] of the protocols [_HasTag] ([tag: str]) and [_HasType]
    ([type: type]). *)

Inductive Key : Type :=
| KeyStr (s : string)
| KeyInt (n : Z).

Definition Key_eqb (k k' : Key) : bool :=
  match k, k' with
  | KeyStr s, KeyStr s' => String.eqb s s'
  | KeyInt n, KeyInt n' => Z.eqb n n'
  | _, _ => false
  end.

Definition PathParts : Type := list Key.

Record value : Type := mkValue {
  class_of : pytype;
  attr_tag : option string;
  attr_type : option pytype
}.

(** [isinstance(x, T)] on a value. *)
Definition isinstance (x : value) (T : pytype) : bool :=
  issubclass (class_of x) T.

(** [isinstance(x, _HasTag)] and [isinstance(x, _HasType)]: the runtime
    check of a protocol with one data member is the presence of the
    attribute. *)
Definition _HasTag (x : value) : bool :=
  match attr_tag x with Some _ => true | None => false end.

Definition _HasType (x : value) : bool :=
  match attr_type x with Some _ => true | None => false end.

(** ** Predicate objects

    One constructor per class of the module, with the fields the class
    stores, and [PyFunction] for a callable supplied by the caller: an
    object with an identity and a behaviour of type
    [Predicate = Callable[[PathParts, Any], bool]].  [mkAny], [mkAll] and
    [mkNot] are the instances; the calls [Any(...)], [All(...)] and
    [Not(...)], which normalize their arguments, are defined below. *)

Inductive Predicate : Type :=
| WithTag (tag : string)
| PathContains (key : Key)
| OfType (type : pytype)
| mkAny (predicates : list Predicate)
| mkAll (predicates : list Predicate)
| mkNot (predicate : Predicate)
| Everything
| Nothing
| PyFunction (id : nat) (fn : PathParts -> value -> bool).

(** ** Objects passed as filters

    [Filter] is [type | str | Predicate | bool | ellipsis | None] or a
    tuple or list of filters; [to_predicate] also receives objects outside
    that union, of which integers and sets are modelled. *)

Inductive pyobj : Type :=
| PyStr (s : string)
| PyType (T : pytype)
| PyBool (b : bool)
| PyEllipsis
| PyNone
| PyPredicate (p : Predicate)
| PyList (items : list pyobj)
| PyTuple (items : list pyobj)
| PySet (items : list pyobj)
| PyInt (n : Z).

Definition Predicate_class (p : Predicate) : pytype :=
  match p with
  | WithTag _ => WithTag_class
  | PathContains _ => PathContains_class
  | OfType _ => OfType_class
  | mkAny _ => Any_class
  | mkAll _ => All_class
  | mkNot _ => Not_class
  | Everything => Everything_class
  | Nothing => Nothing_class
  | PyFunction _ _ => function_t
  end.

(** [type(o)] *)
Definition type_of (o : pyobj) : pytype :=
  match o with
  | PyStr _ => str_t
  | PyType _ => type_t
  | PyBool _ => bool_t
  | PyEllipsis => ellipsis_t
  | PyNone => NoneType_t
  | PyPredicate p => Predicate_class p
  | PyList _ => list_t
  | PyTuple _ => tuple_t
  | PySet _ => set_t
  | PyInt _ => int_t
  end.

(** [isinstance(filter, T)] on a filter object. *)
Definition isinstance_obj (o : pyobj) (T : pytype) : bool :=
  issubclass (type_of o) T.

(** The classes that define [__call__]: [type] (a class is called to
    instantiate it), functions, and the eight classes of this module. *)
Definition classes_with_call : list pytype :=
  [type_t; function_t; WithTag_class; PathContains_class; OfType_class;
   Any_class; All_class; Not_class; Everything_class; Nothing_class].

(** The builtin [callable(o)]: the class of [o] has a [__call__]. *)
Definition callable (o : pyobj) : bool :=
  existsb (in_mro (type_of o)) classes_with_call.

(** ** [__call__] *)

Fixpoint call (p : Predicate) (path : PathParts) (x : value) : bool :=
  match p with
  | WithTag tag =>
      (* isinstance(x, _HasTag) and x.tag == self.tag *)
      match attr_tag x with
      | Some t => String.eqb t tag
      | None => false
      end
  | PathContains key =>
      (* self.key in path *)
      existsb (fun k => Key_eqb k key) path
  | OfType type =>
      (* isinstance(x, self.type) or
         (isinstance(x, _HasType) and issubclass(x.type, self.type)) *)
      isinstance x type ||
      match attr_type x with
      | Some t => issubclass t type
      | None => false
      end
  | mkAny predicates =>
      existsb (fun predicate => call predicate path x) predicates
  | mkAll predicates =>
      forallb (fun predicate => call predicate path x) predicates
  | mkNot predicate => negb (call predicate path x)
  | Everything => true
  | Nothing => false
  | PyFunction _ fn => fn path x
  end.

(** ** [to_predicate] *)

(** [format(value, '!r')], which is what the replacement field
    [{filter:!r}] of the error message evaluates: [!r] after the colon is
    a format spec, handed to [type(value).__format__].  [int.__format__]
    and [str.__format__] reject it with a [ValueError]; every other class
    modelled inherits [object.__format__], which raises a [TypeError] for
    any format spec that is not empty. *)
Definition format_bang_r (value : pyobj) : result string :=
  let name := class_name (type_of value) in
  if isinstance_obj value int_t || isinstance_obj value str_t then
    Raise (ValueError
      ("Invalid format specifier '!r' for object of type '" ++ name ++ "'"))
  else
    Raise (TypeError
      ("unsupported format string passed to " ++ name ++ ".__format__")).

(** The branches are those of the [if]/[elif] chain, in its order; that
    each object takes the branch of the first test it passes is
    [to_predicate_dispatch] below. *)
Fixpoint to_predicate (filter : pyobj) : result Predicate :=
  match filter with
  | PyStr s => Ok (WithTag s)                  (* isinstance(filter, str) *)
  | PyType T => Ok (OfType T)                  (* isinstance(filter, type) *)
  | PyBool b =>                                (* isinstance(filter, bool) *)
      if b then Ok Everything else Ok Nothing
  | PyEllipsis => Ok Everything                (* filter is Ellipsis *)
  | PyNone => Ok Nothing                       (* filter is None *)
  | PyPredicate p => Ok p                      (* callable(filter) *)
  | PyList filters | PyTuple filters =>        (* isinstance(filter, (list, tuple)) *)
      (* Any( *filter ): each element is normalized, in order *)
      predicates <-
        (fix each (l : list pyobj) : result (list Predicate) :=
           match l with
           | [] => Ok []
           | collection_filter :: l' =>
               p <- to_predicate collection_filter ;;
               ps <- each l' ;;
               Ok (p :: ps)
           end) filters ;;
      Ok (mkAny predicates)
  | PySet _ | PyInt _ =>                       (* else *)
      shown <- format_bang_r filter ;;
      Raise (TypeError ("Invalid collection filter: " ++ shown ++ ". "))
  end.

(** [tuple(to_predicate(collection_filter) for collection_filter in filters)] *)
Fixpoint to_predicates (filters : list pyobj) : result (list Predicate) :=
  match filters with
  | [] => Ok []
  | collection_filter :: l' =>
      p <- to_predicate collection_filter ;;
      ps <- to_predicates l' ;;
      Ok (p :: ps)
  end.

(** The calls [Any( *filters )], [All( *filters )] and [Not(filter)]. *)
Definition Any (filters : list pyobj) : result Predicate :=
  predicates <- to_predicates filters ;;
  Ok (mkAny predicates).

Definition All (filters : list pyobj) : result Predicate :=
  predicates <- to_predicates filters ;;
  Ok (mkAll predicates).

Definition Not (collection_filter : pyobj) : result Predicate :=
  predicate <- to_predicate collection_filter ;;
  Ok (mkNot predicate).

(** ** [__eq__] *)

(** [p == q] on predicate objects.  The dataclasses [WithTag],
    [PathContains] and [OfType] compare their field when the classes are
    the same; [Any], [All], [Not], [Everything] and [Nothing] define
    [__eq__] with an [isinstance] test; a function is equal to itself
    only. *)
Fixpoint Predicate_eq (p q : Predicate) {struct p} : bool :=
  match p, q with
  | WithTag tag, WithTag tag' => String.eqb tag tag'
  | PathContains key, PathContains key' => Key_eqb key key'
  | OfType type, OfType type' => pytype_eqb type type'
  | mkAny predicates, mkAny predicates' =>
      tuple_eqb Predicate_eq predicates predicates'
  | mkAll predicates, mkAll predicates' =>
      tuple_eqb Predicate_eq predicates predicates'
  | mkNot predicate, mkNot predicate' => Predicate_eq predicate predicate'
  | Everything, Everything => true
  | Nothing, Nothing => true
  | PyFunction id _, PyFunction id' _ => Nat.eqb id id'
  | _, _ => false
  end.

(** [f == g] on filter objects: [True == 1] and [False == 0]; a list is
    never equal to a tuple; sets are equal when each includes the other. *)
Fixpoint py_eq (f g : pyobj) {struct f} : bool :=
  match f, g with
  | PyStr s, PyStr s' => String.eqb s s'
  | PyType T, PyType T' => pytype_eqb T T'
  | PyBool b, PyBool b' => Bool.eqb b b'
  | PyBool b, PyInt n => Z.eqb (if b then 1 else 0) n
  | PyInt n, PyBool b => Z.eqb n (if b then 1 else 0)
  | PyInt n, PyInt n' => Z.eqb n n'
  | PyEllipsis, PyEllipsis => true
  | PyNone, PyNone => true
  | PyPredicate p, PyPredicate q => Predicate_eq p q
  | PyList items, PyList items' => tuple_eqb py_eq items items'
  | PyTuple items, PyTuple items' => tuple_eqb py_eq items items'
  | PySet items, PySet items' =>
      forallb (fun a => existsb (fun b => py_eq a b) items') items &&
      forallb (fun b => existsb (fun a => py_eq a b) items) items'
  | _, _ => false
  end.

(** ** [__hash__]

    The builtin [hash] of strings, integers, classes, functions and tuples
    is left open: the hash of a string changes from one process to the
    next, and that of a class or function comes from its address. *)

Class Hashing : Type := {
  hash_str : string -> Z;
  hash_int : Z -> Z;
  hash_type : pytype -> Z;
  hash_function : nat -> Z;
  hash_tuple : list Z -> Z
}.

Definition hash_key `{Hashing} (key : Key) : Z :=
  match key with
  | KeyStr s => hash_str s
  | KeyInt n => hash_int n
  end.

(** [hash(p)].  A frozen dataclass hashes the tuple of its fields; [Any]
    and [All] hash [self.predicates], [Not] hashes [self.predicate],
    [Everything] and [Nothing] hash their class. *)
Fixpoint hash `{Hashing} (p : Predicate) : Z :=
  match p with
  | WithTag tag => hash_tuple [hash_str tag]
  | PathContains key => hash_tuple [hash_key key]
  | OfType type => hash_tuple [hash_type type]
  | mkAny predicates => hash_tuple (map hash predicates)
  | mkAll predicates => hash_tuple (map hash predicates)
  | mkNot predicate => hash predicate
  | Everything => hash_type Everything_class
  | Nothing => hash_type Nothing_class
  | PyFunction id _ => hash_function id
  end.

(** ** The shapes [to_predicate] tests for *)

(** [filter is Ellipsis] and [filter is None] *)
Definition is_Ellipsis (filter : pyobj) : bool :=
  match filter with PyEllipsis => true | _ => false end.

Definition is_None (filter : pyobj) : bool :=
  match filter with PyNone => true | _ => false end.

(** The tests of the [if]/[elif] chain, in the order of the source. *)
Definition recognized (filter : pyobj) : bool :=
  isinstance_obj filter str_t
  || isinstance_obj filter type_t
  || isinstance_obj filter bool_t
  || is_Ellipsis filter
  || is_None filter
  || callable filter
  || (isinstance_obj filter list_t || isinstance_obj filter tuple_t).

(** Membership in the declared type [Filter]:
    [type | str | Predicate | bool | ellipsis | None], or a tuple or a list
    of such. *)
Fixpoint is_Filter (filter : pyobj) : bool :=
  match filter with
  | PyStr _ | PyType _ | PyBool _ | PyEllipsis | PyNone | PyPredicate _ => true
  | PyList items | PyTuple items => forallb is_Filter items
  | PySet _ | PyInt _ => false
  end.

(** ** Classes of a caller, to run the statements on *)

Definition Variable_class : pytype := PyClass "Variable" [object_t].
Definition Param_class : pytype := PyClass "Param" [Variable_class].
Definition BatchStat_class : pytype := PyClass "BatchStat" [Variable_class].
Definition VariableState_class : pytype := PyClass "VariableState" [object_t].

(** The normalized sub-predicates are pairwise unequal. *)
Fixpoint pairwise_distinct (ps : list Predicate) : bool :=
  match ps with
  | [] => true
  | p :: l =>
      forallb (fun q => negb (Predicate_eq p q)) l && pairwise_distinct l
  end.

(** A hash to run the statements on: integers modulo [2^61 - 1], strings
    by their length, classes by their name, tuples by a sum. *)
Definition sample_hashing : Hashing := {|
  hash_str := fun s => Z.of_nat (String.length s);
  hash_int := fun n => Z.rem n (2 ^ 61 - 1);
  hash_type := fun C => Z.of_nat (String.length (class_name C));
  hash_function := fun id => Z.of_nat id;
  hash_tuple := fun hs => fold_left (fun acc h => (31 * acc + h)%Z) hs 7%Z
|}.

(** ** Induction over classes, predicate objects and filter objects, with
    the nested sequences taken into account *)

Section pytype_induction.
Variable P : pytype -> Prop.
Hypothesis step : forall name bases, Forall P bases -> P (PyClass name bases).

Fixpoint pytype_rect_bases (C : pytype) : P C :=
  match C with
  | PyClass name bases =>
      step name bases
        ((fix all (l : list pytype) : Forall P l :=
            match l with
            | [] => Forall_nil P
            | B :: l' => Forall_cons B (pytype_rect_bases B) (all l')
            end) bases)
  end.
End pytype_induction.

Section Predicate_induction.
Variable P : Predicate -> Prop.
Hypothesis P_WithTag : forall tag, P (WithTag tag).
Hypothesis P_PathContains : forall key, P (PathContains key).
Hypothesis P_OfType : forall type, P (OfType type).
Hypothesis P_Any : forall ps, Forall P ps -> P (mkAny ps).
Hypothesis P_All : forall ps, Forall P ps -> P (mkAll ps).
Hypothesis P_Not : forall p, P p -> P (mkNot p).
Hypothesis P_Everything : P Everything.
Hypothesis P_Nothing : P Nothing.
Hypothesis P_Function : forall id fn, P (PyFunction id fn).

Fixpoint Predicate_nested_ind (p : Predicate) : P p :=
  let all :=
    fix all (l : list Predicate) : Forall P l :=
      match l with
      | [] => Forall_nil P
      | q :: l' => Forall_cons q (Predicate_nested_ind q) (all l')
      end in
  match p with
  | WithTag tag => P_WithTag tag
  | PathContains key => P_PathContains key
  | OfType type => P_OfType type
  | mkAny ps => P_Any ps (all ps)
  | mkAll ps => P_All ps (all ps)
  | mkNot q => P_Not q (Predicate_nested_ind q)
  | Everything => P_Everything
  | Nothing => P_Nothing
  | PyFunction id fn => P_Function id fn
  end.
End Predicate_induction.

Section pyobj_induction.
Variable P : pyobj -> Prop.
Hypothesis P_atom :
  forall f, (forall l, f <> PyList l) -> (forall l, f <> PyTuple l) ->
            (forall l, f <> PySet l) -> P f.
Hypothesis P_List : forall l, Forall P l -> P (PyList l).
Hypothesis P_Tuple : forall l, Forall P l -> P (PyTuple l).
Hypothesis P_Set : forall l, Forall P l -> P (PySet l).

Fixpoint pyobj_nested_ind (f : pyobj) : P f.
Proof.
  assert (all : forall l, Forall P l).
  { induction l as [|g l IH]; constructor; [apply pyobj_nested_ind | exact IH]. }
  destruct f; try (apply P_atom; intros; discriminate).
  - apply P_List, all.
  - apply P_Tuple, all.
  - apply P_Set, all.
Defined.
End pyobj_induction.

(** ** [__repr__]

    The builtin [repr] of strings, keys, classes and functions is left
    open. *)

Class Repr : Type := {
  repr_str : string -> string;
  repr_key : Key -> string;
  repr_type : pytype -> string;
  repr_function : nat -> string
}.

(** [sep.join(items)] *)
Fixpoint join (sep : string) (items : list string) : string :=
  match items with
  | [] => ""
  | [item] => item
  | item :: rest => item ++ sep ++ join sep rest
  end.

Fixpoint repr `{Repr} (p : Predicate) : string :=
  match p with
  | WithTag tag => "WithTag(" ++ repr_str tag ++ ")"
  | PathContains key => "PathContains(" ++ repr_key key ++ ")"
  | OfType type => "OfType(" ++ repr_type type ++ ")"
  | mkAny predicates => "Any(" ++ join ", " (map repr predicates) ++ ")"
  | mkAll predicates => "All(" ++ join ", " (map repr predicates) ++ ")"
  | mkNot predicate => "Not(" ++ repr predicate ++ ")"
  | Everything => "Everything()"
  | Nothing => "Nothing()"
  | PyFunction id _ => repr_function id
  end.

(** ** The functions a predicate object holds

    A function object is one object: two occurrences with the same
    identity behave alike. *)

Fixpoint functions_of (p : Predicate)
  : list (nat * (PathParts -> value -> bool)) :=
  match p with
  | mkAny predicates | mkAll predicates => flat_map functions_of predicates
  | mkNot predicate => functions_of predicate
  | PyFunction id fn => [(id, fn)]
  | _ => []
  end.

Definition same_identity_same_function (p q : Predicate) : Prop :=
  forall id fn fn',
    In (id, fn) (functions_of p) -> In (id, fn') (functions_of q) ->
    forall path x, fn path x = fn' path x.

(** No [PathContains] occurs in the predicate. *)
Fixpoint path_free (p : Predicate) : bool :=
  match p with
  | PathContains _ => false
  | mkAny predicates | mkAll predicates => forallb path_free predicates
  | mkNot predicate => path_free predicate
  | _ => true
  end.

(** [Not(f)] for each [f] of a sequence, in order. *)
Fixpoint Nots (filters : list pyobj) : result (list Predicate) :=
  match filters with
  | [] => Ok []
  | collection_filter :: l' =>
      n <- Not collection_filter ;;
      ns <- Nots l' ;;
      Ok (n :: ns)
  end.

(** A function and a [repr] to run the statements on. *)
Definition is_kernel (path : PathParts) (x : value) : bool :=
  existsb (fun k => Key_eqb k (KeyStr "kernel")) path.

Definition sample_repr : Repr := {|
  repr_str := fun s => "'" ++ s ++ "'";
  repr_key := fun k => match k with
                       | KeyStr s => "'" ++ s ++ "'"
                       | KeyInt _ => "0"
                       end;
  repr_type := fun C => "<class '" ++ class_name C ++ "'>";
  repr_function := fun _ => "<function>"
|}.

(** * [examples/sst2/input_pipeline.py]

    Sentences and tokens are byte strings.  Files are seen through their
    content, the array library through the operations [Numpy] names. *)

From Stdlib Require Strings.Byte.
Open Scope list_scope.

Definition bytes : Type := list Byte.byte.

(** The literal [b'...'] *)
Definition bytes_of (s : string) : bytes := list_byte_of_string s.

Definition bytes_eqb (s t : bytes) : bool := tuple_eqb Byte.eqb s t.

Definition newline : Byte.byte := Byte.x0a.
Definition space : Byte.byte := Byte.x20.

(** ASCII whitespace, as [bytes.split], [bytes.strip] and [bytes.rsplit]
    see it: tab, line feed, vertical tab, form feed, carriage return and
    space. *)
Definition isspace (c : Byte.byte) : bool :=
  match c with
  | Byte.x09 | Byte.x0a | Byte.x0b | Byte.x0c | Byte.x0d | Byte.x20 => true
  | _ => false
  end.

Inductive builtin_error : Type :=
| IndexError
| KeyError (key : bytes)
| NumpyValueError.

Inductive outcome (A : Type) : Type :=
| Returns (a : A)
| Raises (e : builtin_error).
Arguments Returns {A} a.
Arguments Raises {A} e.

(** ** Byte strings *)

Fixpoint lstrip (s : bytes) : bytes :=
  match s with
  | [] => []
  | c :: s' => if isspace c then lstrip s' else s
  end.

Definition rstrip (s : bytes) : bytes := rev (lstrip (rev s)).

(** [s.strip()] *)
Definition bytes_strip (s : bytes) : bytes := rstrip (lstrip s).

(** [s.rstrip(b'\n')] *)
Fixpoint lstrip_newlines (s : bytes) : bytes :=
  match s with
  | [] => []
  | c :: s' => if Byte.eqb c newline then lstrip_newlines s' else s
  end.

Definition rstrip_newlines (s : bytes) : bytes :=
  rev (lstrip_newlines (rev s)).

(** [s.split()]: the maximal runs of bytes that are not whitespace;
    [word] is the run being read. *)
Fixpoint split_from (word : bytes) (s : bytes) : list bytes :=
  match s with
  | [] => match word with [] => [] | _ => [word] end
  | c :: s' =>
      if isspace c then
        match word with
        | [] => split_from [] s'
        | _ => word :: split_from [] s'
        end
      else split_from (word ++ [c]) s'
  end.

Definition bytes_split (s : bytes) : list bytes := split_from [] s.

(** [s.split(None, maxcount)]: at most [maxcount] words are split off,
    and what follows them, without its leading whitespace, is the last
    item. *)
Fixpoint split_max (maxcount : nat) (word : bytes) (s : bytes) : list bytes :=
  match s with
  | [] => match word with [] => [] | _ => [word] end
  | c :: s' =>
      match word with
      | [] =>
          if isspace c then split_max maxcount [] s'
          else match maxcount with
               | 0 => [c :: s']
               | S _ => split_max maxcount [c] s'
               end
      | _ =>
          if isspace c then word :: split_max (pred maxcount) [] s'
          else split_max maxcount (word ++ [c]) s'
      end
  end.

(** [s.rsplit(maxsplit=maxsplit)]: the same scan from the right. *)
Definition bytes_rsplit (s : bytes) (maxsplit : nat) : list bytes :=
  rev (map (@rev Byte.byte) (split_max maxsplit [] (rev s))).

(** Iterating over a file opened in binary mode: the lines, each with
    its line feed, the last one maybe without. *)
Fixpoint readlines_from (line : bytes) (content : bytes) : list bytes :=
  match content with
  | [] => match line with [] => [] | _ => [line] end
  | c :: content' =>
      if Byte.eqb c newline then (line ++ [c]) :: readlines_from [] content'
      else readlines_from (line ++ [c]) content'
  end.

Definition readlines (content : bytes) : list bytes :=
  readlines_from [] content.

(** ** Ordered dictionaries with byte strings as keys

    Assigning to a key that is present replaces its value and leaves it
    at its place; a new key goes to the end. *)

Definition OrderedDict (V : Type) : Type := list (bytes * V).

Fixpoint dict_get {V : Type} (d : OrderedDict V) (key : bytes) : option V :=
  match d with
  | [] => None
  | (k, v) :: d' => if bytes_eqb k key then Some v else dict_get d' key
  end.

Fixpoint dict_set {V : Type} (d : OrderedDict V) (key : bytes) (v : V)
  : OrderedDict V :=
  match d with
  | [] => [(key, v)]
  | (k, v') :: d' =>
      if bytes_eqb k key then (k, v) :: d' else (k, v') :: dict_set d' key v
  end.

Definition dict_keys {V : Type} (d : OrderedDict V) : list bytes :=
  map fst d.

(** [key in d] *)
Definition dict_contains {V : Type} (d : OrderedDict V) (key : bytes) : bool :=
  match dict_get d key with Some _ => true | None => false end.

(** [d[key]] *)
Definition dict_getitem {V : Type} (d : OrderedDict V) (key : bytes)
  : outcome V :=
  match dict_get d key with
  | Some v => Returns v
  | None => Raises (KeyError key)
  end.

(** [token in sst_tokens], on the set [get_tokens] returns *)
Definition set_contains (tokens : list bytes) (token : bytes) : bool :=
  existsb (fun t => bytes_eqb t token) tokens.

(** ** [whitespace_tokenize], [get_tokens] *)

Definition whitespace_tokenize (s : bytes) : list bytes := bytes_split s.

(** [counter.update(tokens)] on an [OrderedCounter] *)
Definition counter_update (counter : OrderedDict nat) (tokens : list bytes)
  : OrderedDict nat :=
  fold_left
    (fun counter token =>
       dict_set counter token
         (match dict_get counter token with Some n => n | None => 0 end + 1))
    tokens counter.

(** A dataset is the list of the sentences of its examples; the set
    returned is given by its elements. *)
Definition get_tokens (datasets : list (list bytes)) : list bytes :=
  let counter :=
    fold_left
      (fun counter ds =>
         fold_left
           (fun counter sentence =>
              counter_update counter (whitespace_tokenize (bytes_strip sentence)))
           ds counter)
      datasets [] in
  dict_keys counter.

(** ** [save_vocab], [load_vocab] *)

(** The content written to the file. *)
Definition save_vocab (vocab : OrderedDict nat) : bytes :=
  concat (map (fun token => token ++ [newline])%list (dict_keys vocab)).

(** [enumerate] *)
Definition enumerate {A : Type} (l : list A) : list (nat * A) :=
  combine (seq 0 (length l)) l.

(** From the content of the file. *)
Definition load_vocab (content : bytes) : OrderedDict nat :=
  fold_left
    (fun vocab '(i, token) => dict_set vocab (rstrip_newlines token) i)
    (enumerate (readlines content)) [].

(** The loop of [load_vocab] from line number [start]. *)
Definition load_lines (vocab : OrderedDict nat) (start : nat)
    (lines : list bytes) : OrderedDict nat :=
  fold_left
    (fun vocab '(i, token) => dict_set vocab (rstrip_newlines token) i)
    (combine (seq start (length lines)) lines) vocab.

(** ** [get_glove_embeddings]

    What the array library does is left open: the draws of
    [np.random.uniform] after [np.random.seed(seed)], [np.zeros_like],
    and the two conversions [np.array(parts[1:], dtype=np.float32)] and
    [np.array(vectors)], which raise when the fields are not numbers or
    the rows are not of one length. *)

Class Numpy : Type := {
  ndarray : Type;
  random_uniform : Z -> nat -> nat -> ndarray;
  zeros_like : ndarray -> ndarray;
  array_float32 : list bytes -> option ndarray;
  array_stack : list ndarray -> option ndarray
}.

Definition default_specials : list bytes :=
  [bytes_of "<pad>"; bytes_of "<unk>"; bytes_of "<s>"; bytes_of "</s>"].

(** [vocab[token] = len(vocab)] *)
Definition vocab_add (vocab : OrderedDict nat) (token : bytes)
  : OrderedDict nat :=
  dict_set vocab token (length vocab).

(** The body of the loop over [specials]; [vectors] has as many elements
    as there were draws. *)
Definition special_token `{Numpy} (seed : Z) (glove_dim : nat)
    (state : list ndarray * OrderedDict nat) (token : bytes)
  : list ndarray * OrderedDict nat :=
  let '(vectors, vocab) := state in
  (vectors ++ [random_uniform seed (length vectors) glove_dim],
   vocab_add vocab token).

(** The body of the loop over the lines of the GloVe file. *)
Definition glove_line `{Numpy} (sst_tokens : list bytes) (glove_dim : nat)
    (state : list ndarray * OrderedDict nat) (line : bytes)
  : outcome (list ndarray * OrderedDict nat) :=
  let '(vectors, vocab) := state in
  match bytes_rsplit (bytes_strip line) glove_dim with
  | [] => Raises IndexError
  | token :: fields =>
      if set_contains sst_tokens token then
        match array_float32 fields with
        | Some vector => Returns (vectors ++ [vector], vocab_add vocab token)
        | None => Raises NumpyValueError
        end
      else Returns state
  end.

Fixpoint glove_lines `{Numpy} (sst_tokens : list bytes) (glove_dim : nat)
    (state : list ndarray * OrderedDict nat) (lines : list bytes)
  : outcome (list ndarray * OrderedDict nat) :=
  match lines with
  | [] => Returns state
  | line :: rest =>
      match glove_line sst_tokens glove_dim state line with
      | Returns state' => glove_lines sst_tokens glove_dim state' rest
      | Raises e => Raises e
      end
  end.

(** The vocabulary, the embedding matrix, and the content written to
    [vocab.txt] when a cache directory is given; the calls to [logging],
    the creation of the directory and the writing of [embed.npz] are not
    part of the result. *)
Definition get_glove_embeddings `{Numpy}
    (datasets : list (list bytes)) (glove_file : bytes) (glove_dim : nat)
    (specials : list bytes) (seed : Z) (cache : bool)
  : outcome (OrderedDict nat * ndarray * option bytes) :=
  let sst_tokens := get_tokens datasets in
  let '(vectors, vocab) :=
    fold_left (special_token seed glove_dim) specials ([], []) in
  match vectors with
  | [] => Raises IndexError
  | padding :: vectors' =>
      match glove_lines sst_tokens glove_dim
              (zeros_like padding :: vectors', vocab)
              (readlines glove_file) with
      | Raises e => Raises e
      | Returns (vectors, vocab) =>
          match array_stack vectors with
          | None => Raises NumpyValueError
          | Some embed =>
              Returns (vocab, embed,
                       if cache then Some (save_vocab vocab) else None)
          end
      end
  end.

(** The tokens the loops assign an index to, in order: the special
    tokens, then the first item of each line that is in [sst_tokens]. *)
Definition glove_tokens (sst_tokens : list bytes) (glove_dim : nat)
    (lines : list bytes) : list bytes :=
  flat_map
    (fun line =>
       match bytes_rsplit (bytes_strip line) glove_dim with
       | token :: _ => if set_contains sst_tokens token then [token] else []
       | [] => []
       end)
    lines.

Definition assigned_tokens (datasets : list (list bytes))
    (glove_file : bytes) (glove_dim : nat) (specials : list bytes)
  : list bytes :=
  specials ++ glove_tokens (get_tokens datasets) glove_dim
                (readlines glove_file).

(** ** The pre-processing of [SST2DataSource] *)

(** [unk_idx], [bos_idx] and [eos_idx] *)
Definition special_indices (vocab : OrderedDict nat)
  : outcome (nat * nat * nat) :=
  match dict_getitem vocab (bytes_of "<unk>") with
  | Raises e => Raises e
  | Returns unk_idx =>
      match dict_getitem vocab (bytes_of "<s>") with
      | Raises e => Raises e
      | Returns bos_idx =>
          match dict_getitem vocab (bytes_of "</s>") with
          | Raises e => Raises e
          | Returns eos_idx => Returns (unk_idx, bos_idx, eos_idx)
          end
      end
  end.

Definition tokenize (sentence : bytes) : list bytes :=
  whitespace_tokenize (bytes_strip sentence).

Definition encode (vocab : OrderedDict nat) (unk_idx : nat)
    (tokens : list bytes) : list nat :=
  map (fun t => match dict_get vocab t with
                | Some i => i
                | None => unk_idx
                end) tokens.

Definition tf_wrap_sequence (bos_idx eos_idx : nat) (sequence : list nat)
  : list nat :=
  [bos_idx] ++ (sequence ++ [eos_idx]).

Record example : Type := mkExample {
  example_idx : Z;
  example_sentence : bytes;
  example_label : Z
}.

Record processed_example : Type := mkProcessed {
  processed_idx : Z;
  processed_sentence : list nat;
  processed_label : list Z;
  processed_length : nat
}.

Definition preprocess_example (vocab : OrderedDict nat)
    (unk_idx bos_idx eos_idx : nat) (ex : example) : processed_example :=
  let sentence :=
    tf_wrap_sequence bos_idx eos_idx
      (encode vocab unk_idx (tokenize (example_sentence ex))) in
  mkProcessed (example_idx ex) sentence [example_label ex] (length sentence).

(** An array library to run the statements on: an array is the list of
    its fields, a matrix the concatenation of its rows. *)
Definition sample_numpy : Numpy := {|
  ndarray := list bytes;
  random_uniform := fun _ _ _ => [];
  zeros_like := fun v => v;
  array_float32 := fun fields => Some fields;
  array_stack := fun rows => Some (concat rows)
|}.

(** A GloVe file to run the statements on. *)
Definition sample_glove_file : bytes :=
  bytes_of "the 0.1 0.2" ++ newline :: bytes_of "zebra 0.3 0.4" ++ newline ::
  bytes_of "film 0.5 0.6" ++ [newline].

Open Scope string_scope.

(** * Properties *)

(** ** Classes *)

Lemma pytype_eqb_eq (C D : pytype) : pytype_eqb C D = true <-> C = D.
Proof.
  revert D. induction C as [n bs IH] using pytype_rect_bases.
  intros [m ds]. cbn [pytype_eqb].
  rewrite andb_true_iff, String.eqb_eq.
  assert (Hl : forall ds', tuple_eqb pytype_eqb bs ds' = true <-> bs = ds').
  { induction IH as [|B l HB _ IHl]; intros [|E r]; split; intro H;
      try reflexivity; try discriminate.
    - apply andb_true_iff in H. destruct H as [H1 H2].
      apply HB in H1. apply IHl in H2. congruence.
    - inversion H; subst. apply andb_true_iff. split.
      + now apply HB.
      + now apply IHl. }
  rewrite Hl. split.
  - intros [-> ->]. reflexivity.
  - intros H. inversion H. auto.
Qed.

Lemma pytype_eqb_refl (C : pytype) : pytype_eqb C C = true.
Proof. now apply pytype_eqb_eq. Qed.

Lemma pytype_eqb_neq (C D : pytype) : pytype_eqb C D = false <-> C <> D.
Proof.
  rewrite <- pytype_eqb_eq. destruct (pytype_eqb C D); split; intro H;
    congruence.
Qed.

Lemma in_mro_unfold (C T : pytype) :
  in_mro C T = pytype_eqb C T || existsb (fun B => in_mro B T) (class_bases C).
Proof.
  destruct C as [n bs]. reflexivity.
Qed.

Lemma in_mro_subclass_of (C T : pytype) :
  in_mro C T = true -> subclass_of C T.
Proof.
  induction C as [n bs IH] using pytype_rect_bases.
  rewrite in_mro_unfold. intros H. apply orb_true_iff in H.
  destruct H as [H | H].
  - apply pytype_eqb_eq in H. subst. constructor.
  - apply existsb_exists in H. destruct H as [B [HB Hin]].
    cbn [class_bases] in HB.
    apply subclass_base with B; [exact HB|].
    rewrite Forall_forall in IH. now apply IH.
Qed.

Lemma issubclass_iff (C T : pytype) :
  issubclass C T = true <-> subclass_of C T.
Proof.
  unfold issubclass. split.
  - intros H. apply orb_true_iff in H. destruct H as [H | H].
    + apply pytype_eqb_eq in H. subst. constructor.
    + now apply in_mro_subclass_of.
  - intros H. induction H as [C | C | C B T HB _ IH].
    + rewrite in_mro_unfold, pytype_eqb_refl. now rewrite orb_true_r.
    + now rewrite pytype_eqb_refl.
    + apply orb_true_iff in IH. apply orb_true_iff.
      destruct IH as [IH | IH]; [now left | right].
      rewrite in_mro_unfold. apply orb_true_iff. right.
      apply existsb_exists. now exists B.
Qed.

Lemma issubclass_false_iff (C T : pytype) :
  issubclass C T = false <-> ~ subclass_of C T.
Proof.
  rewrite <- issubclass_iff. destruct (issubclass C T); split; intro H;
    congruence.
Qed.

(** ** Sequences *)

Lemma tuple_eqb_refl {A : Type} (eqb : A -> A -> bool) (l : list A) :
  Forall (fun a => eqb a a = true) l -> tuple_eqb eqb l l = true.
Proof.
  induction 1 as [|a l Ha _ IH]; cbn; [reflexivity|].
  now rewrite Ha, IH.
Qed.

Lemma tuple_eqb_map {A B : Type} (eqb : A -> A -> bool) (f : A -> B)
    (l : list A) :
  Forall (fun a => forall b, eqb a b = true -> f a = f b) l ->
  forall r, tuple_eqb eqb l r = true -> map f l = map f r.
Proof.
  induction 1 as [|a l Ha _ IH]; intros [|b r] H; cbn in *;
    try discriminate; [reflexivity|].
  apply andb_true_iff in H. destruct H as [H1 H2].
  now rewrite (Ha b H1), (IH r H2).
Qed.

Lemma tuple_eqb_Forall2 {A : Type} (eqb : A -> A -> bool) (l r : list A) :
  tuple_eqb eqb l r = true <-> Forall2 (fun a b => eqb a b = true) l r.
Proof.
  revert r. induction l as [|a l IH]; intros [|b r]; cbn; split; intro H;
    try discriminate; try solve [constructor]; try solve [inversion H].
  - apply andb_true_iff in H. destruct H as [H1 H2].
    constructor; [exact H1 | now apply IH].
  - inversion H; subst. apply andb_true_iff. split; [assumption | now apply IH].
Qed.

Lemma Forall2_In_left {A B : Type} (R : A -> B -> Prop)
    (l : list A) (r : list B) (a : A) :
  Forall2 R l r -> In a l -> exists b, In b r /\ R a b.
Proof.
  induction 1 as [|a' b' l r Hab _ IH]; intros Ha; [easy|].
  destruct Ha as [-> | Ha].
  - exists b'. split; [now left | exact Hab].
  - destruct (IH Ha) as [b [Hb Hr]]. exists b. split; [now right | exact Hr].
Qed.

(** ** Predicate objects: induction, equality and hash *)

Lemma Key_eqb_eq (k k' : Key) : Key_eqb k k' = true <-> k = k'.
Proof.
  destruct k, k'; cbn; split; intro H; try discriminate.
  - apply String.eqb_eq in H. now subst.
  - inversion H. apply String.eqb_refl.
  - apply Z.eqb_eq in H. now subst.
  - inversion H. apply Z.eqb_refl.
Qed.

Lemma Predicate_eq_refl (p : Predicate) : Predicate_eq p p = true.
Proof.
  induction p using Predicate_nested_ind; cbn;
    auto using String.eqb_refl, pytype_eqb_refl, Nat.eqb_refl, tuple_eqb_refl.
  now apply Key_eqb_eq.
Qed.

(** Equal predicate objects have equal hashes, whatever the builtin
    [hash] is. *)
Lemma Predicate_eq_hash `{Hashing} (p q : Predicate) :
  Predicate_eq p q = true -> hash p = hash q.
Proof.
  revert q. induction p as [tag|key|type|ps IH|ps IH|p IH| | |id fn]
    using Predicate_nested_ind; intros q Hq; destruct q; cbn in Hq;
    try discriminate; cbn.
  - apply String.eqb_eq in Hq. now subst.
  - apply Key_eqb_eq in Hq. now subst.
  - apply pytype_eqb_eq in Hq. now subst.
  - f_equal. now apply (tuple_eqb_map Predicate_eq).
  - f_equal. now apply (tuple_eqb_map Predicate_eq).
  - now apply IH.
  - reflexivity.
  - reflexivity.
  - apply Nat.eqb_eq in Hq. now subst.
Qed.

(** ** The normalizer *)

Lemma to_predicate_list (filters : list pyobj) :
  to_predicate (PyList filters) = Any filters.
Proof.
  unfold Any. cbn [to_predicate]. f_equal.
Qed.

Lemma to_predicate_tuple (filters : list pyobj) :
  to_predicate (PyTuple filters) = Any filters.
Proof.
  unfold Any. cbn [to_predicate]. f_equal.
Qed.

Lemma to_predicates_cons (f : pyobj) (l : list pyobj) :
  to_predicates (f :: l) =
  (p <- to_predicate f ;; ps <- to_predicates l ;; Ok (p :: ps)).
Proof. reflexivity. Qed.

(** The already normalized predicates pass through unchanged. *)
Lemma to_predicates_predicates (ps : list Predicate) :
  to_predicates (map PyPredicate ps) = Ok ps.
Proof.
  induction ps as [|p ps IH]; [reflexivity|].
  cbn [map]. rewrite to_predicates_cons. cbn [to_predicate bind].
  now rewrite IH.
Qed.

(** [to_predicates] succeeds exactly when every element normalizes, and
    then relates the two sequences element by element. *)
Lemma to_predicates_Forall2 (filters : list pyobj) (ps : list Predicate) :
  to_predicates filters = Ok ps <->
  Forall2 (fun f p => to_predicate f = Ok p) filters ps.
Proof.
  revert ps. induction filters as [|f l IH]; intros ps.
  - cbn. split; intro H.
    + inversion H. constructor.
    + inversion H. reflexivity.
  - rewrite to_predicates_cons. split; intro H.
    + destruct (to_predicate f) as [p|e] eqn:Hf; cbn in H; [|discriminate].
      destruct (to_predicates l) as [qs|e] eqn:Hl; cbn in H; [|discriminate].
      inversion H; subst. constructor; [exact Hf | now apply IH].
    + inversion H as [|f' p l' qs Hf Hl]; subst.
      rewrite Hf. cbn. apply IH in Hl. now rewrite Hl.
Qed.

(** Every object of the declared type [Filter] normalizes. *)

Lemma to_predicate_total (filter : pyobj) :
  is_Filter filter = true -> exists p, to_predicate filter = Ok p.
Proof.
  induction filter as [f Hl Ht Hs|l IH|l IH|l IH] using pyobj_nested_ind;
    intros HF.
  - destruct f; try discriminate; cbn; eauto.
    + destruct b; eauto.
    + now elim (Hl items).
    + now elim (Ht items).
  - rewrite to_predicate_list. unfold Any.
    assert (H : exists ps, to_predicates l = Ok ps).
    { cbn [is_Filter] in HF. induction IH as [|g l Hg _ IHl].
      - now exists [].
      - cbn in HF. apply andb_true_iff in HF. destruct HF as [H1 H2].
        destruct (Hg H1) as [p Hp]. destruct (IHl H2) as [ps Hps].
        exists (p :: ps). rewrite to_predicates_cons, Hp. cbn. now rewrite Hps. }
    destruct H as [ps ->]. cbn. eauto.
  - rewrite to_predicate_tuple. unfold Any.
    assert (H : exists ps, to_predicates l = Ok ps).
    { cbn [is_Filter] in HF. induction IH as [|g l Hg _ IHl].
      - now exists [].
      - cbn in HF. apply andb_true_iff in HF. destruct HF as [H1 H2].
        destruct (Hg H1) as [p Hp]. destruct (IHl H2) as [ps Hps].
        exists (p :: ps). rewrite to_predicates_cons, Hp. cbn. now rewrite Hps. }
    destruct H as [ps ->]. cbn. eauto.
  - discriminate.
Qed.

(** C1. [to_predicate] dispatches on the shape of the filter in the order
    of the source: a string gives [WithTag] of that string; otherwise a
    class gives [OfType] of that class (although a class is callable);
    otherwise [True] gives [Everything()] and [False] gives [Nothing()];
    otherwise [Ellipsis] gives [Everything()]; otherwise [None] gives
    [Nothing()]; otherwise a callable is returned unchanged.  The
    predicates obtained from [True] and [Ellipsis] hold of every path and
    value, those obtained from [False] and [None] of none. *)
Theorem to_predicate_dispatch :
  (forall filter : pyobj,
     if isinstance_obj filter str_t then
       exists s, filter = PyStr s /\ to_predicate filter = Ok (WithTag s)
     else if isinstance_obj filter type_t then
       exists T, filter = PyType T /\ to_predicate filter = Ok (OfType T)
     else if isinstance_obj filter bool_t then
       exists b, filter = PyBool b /\
                 to_predicate filter = Ok (if b then Everything else Nothing)
     else if is_Ellipsis filter then to_predicate filter = Ok Everything
     else if is_None filter then to_predicate filter = Ok Nothing
     else if callable filter then
       exists p, filter = PyPredicate p /\ to_predicate filter = Ok p
     else True) /\
  (forall s, to_predicate (PyStr s) = Ok (WithTag s)) /\
  (forall T, callable (PyType T) = true /\
             to_predicate (PyType T) = Ok (OfType T)) /\
  (forall p, to_predicate (PyPredicate p) = Ok p) /\
  (forall path x,
     (exists p, to_predicate (PyBool true) = Ok p /\
                Predicate_eq p Everything = true /\ call p path x = true) /\
     (exists p, to_predicate PyEllipsis = Ok p /\
                Predicate_eq p Everything = true /\ call p path x = true) /\
     (exists p, to_predicate (PyBool false) = Ok p /\
                Predicate_eq p Nothing = true /\ call p path x = false) /\
     (exists p, to_predicate PyNone = Ok p /\
                Predicate_eq p Nothing = true /\ call p path x = false)).
Proof.
  split; [|repeat split; eauto using eq_refl].
  intros filter. destruct filter as [s|T|b| | |p|l|l|l|n];
      try (vm_compute; exact I); cbn.
    + now exists s.
    + now exists T.
    + now exists b; destruct b.
    + reflexivity.
    + reflexivity.
    + destruct p; vm_compute; eexists; split; reflexivity.
Qed.

(** C2. An integer is not a recognized filter: [to_predicate] reaches the
    last branch, and there the evaluation of the message,
    [f'... {filter:!r}. '], raises before the [TypeError] that names the
    value is built: a [ValueError] for an integer, a [TypeError] of
    [object.__format__] for a set.  The error is raised by the
    normalization itself, and no predicate is returned. *)
Theorem to_predicate_unsupported_literal :
  to_predicate (PyInt 1) =
    Raise (ValueError "Invalid format specifier '!r' for object of type 'int'") /\
  (forall n, recognized (PyInt n) = false /\
             exists msg, to_predicate (PyInt n) = Raise (ValueError msg)) /\
  (forall items, recognized (PySet items) = false /\
     to_predicate (PySet items) =
       Raise (TypeError "unsupported format string passed to set.__format__")) /\
  (forall filter,
     recognized filter = true \/
     exists e, to_predicate filter = Raise e /\
               forall shown,
                 e <> TypeError ("Invalid collection filter: " ++ shown ++ ". ")).
Proof.
  split; [reflexivity|]. split; [|split].
  - intros n. split; [reflexivity|]. eexists. reflexivity.
  - intros items. split; reflexivity.
  - intros filter.
    destruct filter as [s|T|b| | |p|l|l|l|n];
      try (left; reflexivity).
    + left. destruct p; reflexivity.
    + right. eexists. split; [reflexivity|]. intros shown H. inversion H.
    + right. eexists. split; [reflexivity|]. intros shown H. discriminate H.
Qed.

(** C3, as the code has it.  A list or a tuple of filters normalizes to
    [Any] of its elements: when the elements normalize to [ps], in order,
    the result is the [Any] instance holding [ps], which is also what
    [Any] builds from the normalized elements; in particular
    [to_predicate([f1, f2]) == Any(to_predicate(f1), to_predicate(f2))],
    and that predicate holds when one of the two holds. *)
Theorem to_predicate_sequence
    (filters : list pyobj) (ps : list Predicate)
    (f1 f2 : pyobj) (p1 p2 : Predicate)
    (Hps : Forall2 (fun f p => to_predicate f = Ok p) filters ps)
    (H1 : to_predicate f1 = Ok p1) (H2 : to_predicate f2 = Ok p2) :
  to_predicate (PyList filters) = Any filters /\
  to_predicate (PyTuple filters) = Any filters /\
  Any filters = Ok (mkAny ps) /\
  Any (map PyPredicate ps) = Ok (mkAny ps) /\
  (exists a b,
     to_predicate (PyList [f1; f2]) = Ok a /\
     to_predicate (PyTuple [f1; f2]) = Ok a /\
     Any [PyPredicate p1; PyPredicate p2] = Ok b /\
     Predicate_eq a b = true /\
     forall path x, call a path x = call p1 path x || call p2 path x).
Proof.
  split; [apply to_predicate_list|]. split; [apply to_predicate_tuple|].
  apply to_predicates_Forall2 in Hps. split; [|split].
  - unfold Any. now rewrite Hps.
  - unfold Any. now rewrite to_predicates_predicates.
  - exists (mkAny [p1; p2]), (mkAny [p1; p2]).
    rewrite to_predicate_list, to_predicate_tuple. unfold Any.
    rewrite !to_predicates_cons, H1, H2. cbn.
    repeat split; try reflexivity.
    + now rewrite !Predicate_eq_refl.
    + intros path x. now rewrite orb_false_r.
Qed.

Lemma to_predicate_sequence_witness :
  Forall2 (fun f p => to_predicate f = Ok p)
    [PyStr "a"; PyBool true; PyTuple [PyNone]]
    [WithTag "a"; Everything; mkAny [Nothing]] /\
  to_predicate (PyStr "a") = Ok (WithTag "a") /\
  to_predicate (PyType int_t) = Ok (OfType int_t) /\
  to_predicate (PyList [PyStr "a"; PyBool true; PyTuple [PyNone]]) =
    Ok (mkAny [WithTag "a"; Everything; mkAny [Nothing]]).
Proof.
  assert (Hps : Forall2 (fun f p => to_predicate f = Ok p)
            [PyStr "a"; PyBool true; PyTuple [PyNone]]
            [WithTag "a"; Everything; mkAny [Nothing]])
    by (repeat constructor).
  split; [exact Hps|]. split; [reflexivity|]. split; [reflexivity|].
  destruct (to_predicate_sequence _ _ (PyStr "a") (PyType int_t) _ _
              Hps eq_refl eq_refl) as [HL [_ [HA _]]].
  now rewrite HL.
Defined.

(** C3, as stated, fails on a set: a set is not a list nor a tuple, so it
    reaches the last branch and no [Any] is returned. *)
Lemma to_predicate_set_not_Any :
  Any [PyStr "a"; PyStr "b"] = Ok (mkAny [WithTag "a"; WithTag "b"]) /\
  to_predicate (PySet [PyStr "a"; PyStr "b"]) =
    Raise (TypeError "unsupported format string passed to set.__format__") /\
  to_predicate (PySet [PyStr "a"; PyStr "b"]) <> Any [PyStr "a"; PyStr "b"].
Proof.
  split; [reflexivity|]. split; [reflexivity|]. discriminate.
Qed.

(** C4. [OfType(T)(path, x)] is true exactly when [x] is an instance of
    [T], or [x] has a [type] attribute that is [T] or a subclass of [T];
    the path plays no part.  So a value that is not an instance of [T]
    does not match when its [type] attribute is unrelated to [T], nor
    when it has no [type] attribute. *)
Theorem OfType_call_iff (T : pytype) (path : PathParts) (x : value) :
  (call (OfType T) path x = true <->
     subclass_of (class_of x) T \/
     exists t, attr_type x = Some t /\ (t = T \/ (t <> T /\ subclass_of t T))) /\
  (forall path', call (OfType T) path' x = call (OfType T) path x) /\
  (forall t, ~ subclass_of (class_of x) T -> attr_type x = Some t ->
             ~ subclass_of t T -> call (OfType T) path x = false) /\
  (~ subclass_of (class_of x) T -> attr_type x = None ->
   call (OfType T) path x = false).
Proof.
  cbn [call]. unfold isinstance. split; [|split; [|split]].
  - rewrite orb_true_iff, issubclass_iff. split; intros [H | H]; auto; right.
    + destruct (attr_type x) as [t|]; [|discriminate].
      exists t. split; [reflexivity|]. apply issubclass_iff in H.
      destruct (pytype_eqb t T) eqn:E.
      * left. now apply pytype_eqb_eq.
      * right. split; [now apply pytype_eqb_neq | exact H].
    + destruct H as [t [-> [-> | [_ H]]]]; apply issubclass_iff;
        [constructor | exact H].
  - reflexivity.
  - intros t Hx -> Ht. apply issubclass_false_iff in Hx, Ht.
    now rewrite Hx, Ht.
  - intros Hx ->. apply issubclass_false_iff in Hx. now rewrite Hx.
Qed.

Lemma OfType_call_iff_witness :
  ~ subclass_of VariableState_class Param_class /\
  ~ subclass_of BatchStat_class Param_class /\
  call (OfType Param_class) [KeyStr "bn"; KeyStr "mean"]
       (mkValue VariableState_class None (Some BatchStat_class)) = false /\
  call (OfType Variable_class) [KeyStr "bn"; KeyStr "mean"]
       (mkValue VariableState_class None (Some BatchStat_class)) = true.
Proof.
  assert (H1 : ~ subclass_of VariableState_class Param_class)
    by (apply issubclass_false_iff; reflexivity).
  assert (H2 : ~ subclass_of BatchStat_class Param_class)
    by (apply issubclass_false_iff; reflexivity).
  split; [exact H1|]. split; [exact H2|]. split.
  - apply (proj1 (proj2 (proj2
      (OfType_call_iff Param_class [KeyStr "bn"; KeyStr "mean"]
         (mkValue VariableState_class None (Some BatchStat_class)))))
      BatchStat_class H1 eq_refl H2).
  - apply (proj1 (OfType_call_iff Variable_class [KeyStr "bn"; KeyStr "mean"]
         (mkValue VariableState_class None (Some BatchStat_class)))).
    right. exists BatchStat_class. split; [reflexivity|]. right. split.
    + discriminate.
    + apply issubclass_iff. reflexivity.
Defined.

(** C5. [All()] holds of every path and value and [Any()] of none; in
    general, when the arguments normalize to [ps], [Any] holds exactly
    when one of [ps] holds and [All] exactly when each of [ps] holds. *)
Theorem Any_All_call
    (filters : list pyobj) (ps : list Predicate)
    (path : PathParts) (x : value)
    (Hps : to_predicates filters = Ok ps) :
  (exists a, All [] = Ok a /\ forall path' x', call a path' x' = true) /\
  (exists a, Any [] = Ok a /\ forall path' x', call a path' x' = false) /\
  (exists a, Any filters = Ok a /\
     (call a path x = true <-> exists p, In p ps /\ call p path x = true)) /\
  (exists a, All filters = Ok a /\
     (call a path x = true <-> forall p, In p ps -> call p path x = true)).
Proof.
  split; [|split; [|split]].
  - exists (mkAll []). split; reflexivity.
  - exists (mkAny []). split; reflexivity.
  - exists (mkAny ps). unfold Any. rewrite Hps. split; [reflexivity|].
    cbn [call]. apply existsb_exists.
  - exists (mkAll ps). unfold All. rewrite Hps. split; [reflexivity|].
    cbn [call]. apply forallb_forall.
Qed.

Lemma Any_All_call_witness :
  to_predicates [PyStr "a"; PyType Param_class] =
    Ok [WithTag "a"; OfType Param_class] /\
  exists a, Any [PyStr "a"; PyType Param_class] = Ok a /\
    (call a [KeyStr "w"] (mkValue Param_class None None) = true <->
     exists p, In p [WithTag "a"; OfType Param_class] /\
               call p [KeyStr "w"] (mkValue Param_class None None) = true).
Proof.
  split; [reflexivity|].
  exact (proj1 (proj2 (proj2
    (Any_All_call [PyStr "a"; PyType Param_class]
       [WithTag "a"; OfType Param_class]
       [KeyStr "w"] (mkValue Param_class None None) eq_refl)))).
Defined.

(** C8. [WithTag(t)(path, x)] is true exactly when [x] has a [tag]
    attribute equal to [t]; the path plays no part, and a value without
    the attribute gives [False]. *)
Theorem WithTag_call_iff (t : string) (path : PathParts) (x : value) :
  (call (WithTag t) path x = true <-> attr_tag x = Some t) /\
  (forall path', call (WithTag t) path' x = call (WithTag t) path x) /\
  (attr_tag x = None -> call (WithTag t) path x = false) /\
  call (WithTag t) path x =
    _HasTag x && match attr_tag x with
                 | Some t' => String.eqb t' t
                 | None => false
                 end.
Proof.
  cbn [call]. unfold _HasTag. repeat split.
  - destruct (attr_tag x) as [t'|]; [|discriminate].
    intros H. apply String.eqb_eq in H. now subst.
  - intros ->. apply String.eqb_refl.
  - now intros ->.
  - now destruct (attr_tag x).
Qed.

Lemma WithTag_call_iff_witness :
  attr_tag (mkValue Param_class None None) = None /\
  call (WithTag "a") [KeyStr "w"] (mkValue Param_class None None) = false.
Proof.
  split; [reflexivity|].
  exact (proj1 (proj2 (proj2
    (WithTag_call_iff "a" [KeyStr "w"] (mkValue Param_class None None))))
    eq_refl).
Defined.

(** The result of a normalization is a callable that none of the earlier
    tests of [to_predicate] catches. *)
Lemma Predicate_callable (p : Predicate) :
  isinstance_obj (PyPredicate p) str_t = false /\
  isinstance_obj (PyPredicate p) type_t = false /\
  isinstance_obj (PyPredicate p) bool_t = false /\
  is_Ellipsis (PyPredicate p) = false /\
  is_None (PyPredicate p) = false /\
  callable (PyPredicate p) = true.
Proof. destruct p; repeat split. Qed.

(** C6. [to_predicate] is idempotent: the predicate it returns is a
    callable that is not a string, a class, a boolean, [Ellipsis] or
    [None], so normalizing it again returns it unchanged; and every
    object of type [Filter] does normalize. *)
Theorem to_predicate_idempotent (filter : pyobj) (p : Predicate)
    (Hp : to_predicate filter = Ok p) :
  to_predicate (PyPredicate p) = Ok p /\
  (f <- to_predicate filter ;; to_predicate (PyPredicate f)) =
    to_predicate filter /\
  callable (PyPredicate p) = true /\
  isinstance_obj (PyPredicate p) str_t = false /\
  isinstance_obj (PyPredicate p) type_t = false /\
  isinstance_obj (PyPredicate p) bool_t = false /\
  is_Ellipsis (PyPredicate p) = false /\
  is_None (PyPredicate p) = false /\
  (forall f, is_Filter f = true ->
     exists q, to_predicate f = Ok q /\ to_predicate (PyPredicate q) = Ok q).
Proof.
  destruct (Predicate_callable p) as (H1 & H2 & H3 & H4 & H5 & H6).
  rewrite Hp. repeat split; auto.
  intros f Hf. destruct (to_predicate_total f Hf) as [q Hq]. now exists q.
Qed.

Lemma to_predicate_idempotent_witness :
  to_predicate (PyList [PyStr "a"; PyEllipsis]) =
    Ok (mkAny [WithTag "a"; Everything]) /\
  to_predicate (PyPredicate (mkAny [WithTag "a"; Everything])) =
    Ok (mkAny [WithTag "a"; Everything]).
Proof.
  split; [reflexivity|].
  exact (proj1 (to_predicate_idempotent (PyList [PyStr "a"; PyEllipsis])
                  (mkAny [WithTag "a"; Everything]) eq_refl)).
Defined.

(** ** Equality of combinators *)

(** Literal-equal filters that both normalize give equal predicates. *)
Lemma py_eq_to_predicate (f : pyobj) :
  forall g p q,
    py_eq f g = true -> to_predicate f = Ok p -> to_predicate g = Ok q ->
    Predicate_eq p q = true.
Proof.
  assert (Hseq : forall l,
    Forall (fun f => forall g p q, py_eq f g = true ->
              to_predicate f = Ok p -> to_predicate g = Ok q ->
              Predicate_eq p q = true) l ->
    forall l' ps qs, tuple_eqb py_eq l l' = true ->
      to_predicates l = Ok ps -> to_predicates l' = Ok qs ->
      tuple_eqb Predicate_eq ps qs = true).
  { induction 1 as [|f0 l Hf _ IHl]; intros [|g l'] ps qs He Hl Hl';
      cbn in He; try discriminate.
    - cbn in Hl, Hl'. inversion Hl. inversion Hl'. reflexivity.
    - apply andb_true_iff in He. destruct He as [He1 He2].
      rewrite to_predicates_cons in Hl, Hl'.
      destruct (to_predicate f0) as [p|] eqn:Ef; [|discriminate].
      destruct (to_predicates l) as [ps'|] eqn:El; [|discriminate].
      destruct (to_predicate g) as [q|] eqn:Eg; [|discriminate].
      destruct (to_predicates l') as [qs'|] eqn:El'; [|discriminate].
      cbn in Hl, Hl'. inversion Hl; inversion Hl'; subst. cbn.
      rewrite (Hf g p q He1 eq_refl Eg). cbn.
      now apply (IHl l' ps' qs'). }
  induction f as [f Hl Ht Hs|l IH|l IH|l IH] using pyobj_nested_ind;
    intros g p q He Hp Hq.
  - destruct f; try (now elim (Hl items)); try (now elim (Ht items));
      try (now elim (Hs items)); destruct g; cbn in He; try discriminate;
      cbn in Hp, Hq; try discriminate.
    + inversion Hp; inversion Hq; subst. exact He.
    + inversion Hp; inversion Hq; subst. exact He.
    + apply eqb_prop in He. subst.
      destruct b0; inversion Hp; inversion Hq; subst; reflexivity.
    + inversion Hp; inversion Hq; subst. reflexivity.
    + inversion Hp; inversion Hq; subst. reflexivity.
    + inversion Hp; inversion Hq; subst. exact He.
  - destruct g; cbn in He; try discriminate.
    rewrite to_predicate_list in Hp, Hq. unfold Any in Hp, Hq.
    destruct (to_predicates l) as [ps|] eqn:El; [|discriminate].
    destruct (to_predicates items) as [qs|] eqn:El'; [|discriminate].
    cbn in Hp, Hq. inversion Hp; inversion Hq; subst. cbn.
    now apply (Hseq l IH items).
  - destruct g; cbn in He; try discriminate.
    rewrite to_predicate_tuple in Hp, Hq. unfold Any in Hp, Hq.
    destruct (to_predicates l) as [ps|] eqn:El; [|discriminate].
    destruct (to_predicates items) as [qs|] eqn:El'; [|discriminate].
    cbn in Hp, Hq. inversion Hp; inversion Hq; subst. cbn.
    now apply (Hseq l IH items).
  - discriminate Hp.
Qed.

Lemma py_eq_to_predicates (l l' : list pyobj) (ps qs : list Predicate) :
  tuple_eqb py_eq l l' = true ->
  to_predicates l = Ok ps -> to_predicates l' = Ok qs ->
  tuple_eqb Predicate_eq ps qs = true.
Proof.
  intros He Hl Hl'.
  assert (H : Predicate_eq (mkAny ps) (mkAny qs) = true).
  { apply (py_eq_to_predicate (PyList l) (PyList l')).
    - exact He.
    - rewrite to_predicate_list. unfold Any. now rewrite Hl.
    - rewrite to_predicate_list. unfold Any. now rewrite Hl'. }
  exact H.
Qed.

Lemma pairwise_distinct_head (p q : Predicate) (l : list Predicate) :
  pairwise_distinct (p :: l) = true -> In q l -> Predicate_eq p q = false.
Proof.
  cbn. intros H Hq. apply andb_true_iff in H. destruct H as [H _].
  rewrite forallb_forall in H. apply H in Hq.
  now apply negb_true_iff in Hq.
Qed.

(** With pairwise unequal normal forms, an equal [Any] can only come from
    the same arguments in the same order. *)
Lemma reorder_same (fs : list pyobj) :
  forall gs ps qs,
    to_predicates fs = Ok ps -> to_predicates gs = Ok qs ->
    Permutation fs gs -> pairwise_distinct ps = true ->
    tuple_eqb Predicate_eq ps qs = true -> fs = gs.
Proof.
  induction fs as [|f fs IH]; intros gs ps qs Hfs Hgs Hperm Hd He.
  - apply Permutation_nil in Hperm. now subst.
  - destruct gs as [|g gs].
    { apply Permutation_sym, Permutation_nil in Hperm. discriminate. }
    rewrite to_predicates_cons in Hfs, Hgs.
    destruct (to_predicate f) as [p|] eqn:Ef; [|discriminate].
    destruct (to_predicates fs) as [ps'|] eqn:Efs; [|discriminate].
    destruct (to_predicate g) as [q|] eqn:Eg; [|discriminate].
    destruct (to_predicates gs) as [qs'|] eqn:Egs; [|discriminate].
    cbn in Hfs, Hgs. inversion Hfs; inversion Hgs; subst. clear Hfs Hgs.
    cbn [tuple_eqb] in He. apply andb_true_iff in He. destruct He as [He1 He2].
    assert (Hg : In g (f :: fs)).
    { apply Permutation_in with (g :: gs); [now apply Permutation_sym|].
      now left. }
    destruct Hg as [Hg | Hg].
    + subst g. f_equal. apply (IH gs ps' qs'); auto.
      * now apply Permutation_cons_inv in Hperm.
      * cbn in Hd. apply andb_true_iff in Hd. tauto.
    + exfalso. apply to_predicates_Forall2 in Efs.
      destruct (Forall2_In_left _ _ _ _ Efs Hg) as [p' [Hp' Hgp']].
      rewrite Eg in Hgp'. inversion Hgp'; subst p'.
      rewrite (pairwise_distinct_head p q ps' Hd Hp') in He1. discriminate.
Qed.

Lemma Not_Not_neq (p : Predicate) :
  Predicate_eq (mkNot (mkNot p)) p = false /\
  Predicate_eq p (mkNot (mkNot p)) = false.
Proof.
  induction p using Predicate_nested_ind; try (split; reflexivity).
  destruct p; try (split; reflexivity). cbn in *. exact IHp.
Qed.

(** C7, as the code has it.  Two [Any] instances, and two [All]
    instances, built from literal-equal sequences of sub-filters in the
    same order are equal and have equal hashes.  Equality is structural:
    the same class and the same sequence of normalized sub-predicates, in
    order; so the same sub-filters in another order give an instance that
    is not equal when the predicates they normalize to are pairwise
    unequal, which is more than the sub-filters being distinct. *)
Theorem Any_All_eq_ordered `{Hashing}
    (fs gs : list pyobj) (ps qs : list Predicate)
    (Hfs : to_predicates fs = Ok ps) (Hgs : to_predicates gs = Ok qs) :
  Any fs = Ok (mkAny ps) /\ Any gs = Ok (mkAny qs) /\
  All fs = Ok (mkAll ps) /\ All gs = Ok (mkAll qs) /\
  Predicate_eq (mkAny ps) (mkAny qs) = tuple_eqb Predicate_eq ps qs /\
  Predicate_eq (mkAll ps) (mkAll qs) = tuple_eqb Predicate_eq ps qs /\
  Predicate_eq (mkAny ps) (mkAll qs) = false /\
  Predicate_eq (mkAll ps) (mkAny qs) = false /\
  (tuple_eqb py_eq fs gs = true ->
     Predicate_eq (mkAny ps) (mkAny qs) = true /\
     hash (mkAny ps) = hash (mkAny qs) /\
     Predicate_eq (mkAll ps) (mkAll qs) = true /\
     hash (mkAll ps) = hash (mkAll qs)) /\
  (Permutation fs gs -> fs <> gs -> pairwise_distinct ps = true ->
     Predicate_eq (mkAny ps) (mkAny qs) = false /\
     Predicate_eq (mkAll ps) (mkAll qs) = false).
Proof.
  unfold Any, All. rewrite Hfs, Hgs. cbn [bind Predicate_eq].
  repeat (split; [reflexivity|]). split.
  - intros He. pose proof (py_eq_to_predicates fs gs ps qs He Hfs Hgs) as E.
    assert (EA : Predicate_eq (mkAny ps) (mkAny qs) = true) by exact E.
    assert (EL : Predicate_eq (mkAll ps) (mkAll qs) = true) by exact E.
    repeat split; auto using Predicate_eq_hash.
  - intros Hperm Hneq Hd.
    destruct (tuple_eqb Predicate_eq ps qs) eqn:E; [|split; reflexivity].
    elim Hneq. now apply (reorder_same fs gs ps qs).
Qed.

Lemma Any_All_eq_ordered_witness :
  to_predicates [PyStr "a"; PyType Param_class] =
    Ok [WithTag "a"; OfType Param_class] /\
  to_predicates [PyType Param_class; PyStr "a"] =
    Ok [OfType Param_class; WithTag "a"] /\
  Permutation [PyStr "a"; PyType Param_class]
              [PyType Param_class; PyStr "a"] /\
  [PyStr "a"; PyType Param_class] <> [PyType Param_class; PyStr "a"] /\
  pairwise_distinct [WithTag "a"; OfType Param_class] = true /\
  Predicate_eq (mkAny [WithTag "a"; OfType Param_class])
               (mkAny [OfType Param_class; WithTag "a"]) = false /\
  Predicate_eq (mkAll [WithTag "a"; OfType Param_class])
               (mkAll [OfType Param_class; WithTag "a"]) = false.
Proof.
  assert (Hn : [PyStr "a"; PyType Param_class] <>
               [PyType Param_class; PyStr "a"]) by discriminate.
  split; [reflexivity|]. split; [reflexivity|].
  split; [apply perm_swap|]. split; [exact Hn|]. split; [reflexivity|].
  apply (proj2 (proj2 (proj2 (proj2 (proj2 (proj2 (proj2 (proj2 (proj2
    (@Any_All_eq_ordered sample_hashing
       [PyStr "a"; PyType Param_class] [PyType Param_class; PyStr "a"]
       [WithTag "a"; OfType Param_class] [OfType Param_class; WithTag "a"]
       eq_refl eq_refl)))))))))
    (perm_swap _ _ _) Hn eq_refl).
Defined.

(** C7, as stated, fails on distinct sub-filters that have one normal
    form: [True] and [Ellipsis] are two filters, neither equal to the
    other, and [Any(True, ...)] and [Any(..., True)] take them in
    different orders; yet both hold [(Everything(), Everything())] and
    are equal, and so are [All(True, ...)] and [All(..., True)]. *)
Lemma Any_reorder_same_normal_form :
  py_eq (PyBool true) PyEllipsis = false /\
  py_eq PyEllipsis (PyBool true) = false /\
  Permutation [PyBool true; PyEllipsis] [PyEllipsis; PyBool true] /\
  [PyBool true; PyEllipsis] <> [PyEllipsis; PyBool true] /\
  Any [PyBool true; PyEllipsis] = Ok (mkAny [Everything; Everything]) /\
  Any [PyEllipsis; PyBool true] = Ok (mkAny [Everything; Everything]) /\
  All [PyBool true; PyEllipsis] = Ok (mkAll [Everything; Everything]) /\
  All [PyEllipsis; PyBool true] = Ok (mkAll [Everything; Everything]) /\
  Predicate_eq (mkAny [Everything; Everything])
               (mkAny [Everything; Everything]) = true /\
  Predicate_eq (mkAll [Everything; Everything])
               (mkAll [Everything; Everything]) = true.
Proof.
  repeat split; try reflexivity; [apply perm_swap | discriminate].
Qed.

(** C9. [Not(Not(f))] holds exactly where [to_predicate(f)] holds, and it
    is the instance [Not] of [Not] of that predicate: nothing simplifies
    the double negation, and the instance is not equal to the
    predicate. *)
Theorem Not_Not_call (filter : pyobj) (p : Predicate)
    (Hp : to_predicate filter = Ok p) :
  exists n nn,
    Not filter = Ok n /\ Not (PyPredicate n) = Ok nn /\
    nn = mkNot (mkNot p) /\
    (forall path x, call nn path x = call p path x) /\
    Predicate_eq nn p = false /\ Predicate_eq p nn = false.
Proof.
  exists (mkNot p), (mkNot (mkNot p)). unfold Not. rewrite Hp. cbn [bind].
  repeat split.
  - intros path x. cbn [call]. apply negb_involutive.
  - apply Not_Not_neq.
  - apply Not_Not_neq.
Qed.

Lemma Not_Not_call_witness :
  to_predicate (PyStr "a") = Ok (WithTag "a") /\
  exists n nn,
    Not (PyStr "a") = Ok n /\ Not (PyPredicate n) = Ok nn /\
    nn = mkNot (mkNot (WithTag "a")) /\
    (forall path x, call nn path x = call (WithTag "a") path x) /\
    Predicate_eq nn (WithTag "a") = false /\
    Predicate_eq (WithTag "a") nn = false.
Proof.
  split; [reflexivity|].
  exact (Not_Not_call (PyStr "a") (WithTag "a") eq_refl).
Defined.

(** C10. [Any], [All] and [Not] normalize their arguments when they are
    built, so a combinator built from raw filters is equal, with an equal
    hash, to the one built from the predicates these filters normalize
    to: [Not('a') == Not(WithTag('a'))] and
    [Any('a', T) == Any(WithTag('a'), OfType(T))]. *)
Theorem combinator_eq_normalized `{Hashing}
    (filters : list pyobj) (ps : list Predicate)
    (collection_filter : pyobj) (p : Predicate)
    (a : string) (T : pytype)
    (Hps : to_predicates filters = Ok ps)
    (Hp : to_predicate collection_filter = Ok p) :
  (exists c c', Any filters = Ok c /\ Any (map PyPredicate ps) = Ok c' /\
                Predicate_eq c c' = true /\ hash c = hash c') /\
  (exists c c', All filters = Ok c /\ All (map PyPredicate ps) = Ok c' /\
                Predicate_eq c c' = true /\ hash c = hash c') /\
  (exists c c', Not collection_filter = Ok c /\ Not (PyPredicate p) = Ok c' /\
                Predicate_eq c c' = true /\ hash c = hash c') /\
  (exists c c', Not (PyStr a) = Ok c /\ Not (PyPredicate (WithTag a)) = Ok c' /\
                Predicate_eq c c' = true /\ hash c = hash c') /\
  (exists c c', Any [PyStr a; PyType T] = Ok c /\
                Any [PyPredicate (WithTag a); PyPredicate (OfType T)] = Ok c' /\
                Predicate_eq c c' = true /\ hash c = hash c').
Proof.
  split; [|split; [|split; [|split]]].
  - exists (mkAny ps), (mkAny ps). unfold Any.
    rewrite Hps, to_predicates_predicates.
    repeat split. apply Predicate_eq_refl.
  - exists (mkAll ps), (mkAll ps). unfold All.
    rewrite Hps, to_predicates_predicates.
    repeat split. apply Predicate_eq_refl.
  - exists (mkNot p), (mkNot p). unfold Not. rewrite Hp.
    repeat split. apply Predicate_eq_refl.
  - exists (mkNot (WithTag a)), (mkNot (WithTag a)).
    repeat split. apply Predicate_eq_refl.
  - exists (mkAny [WithTag a; OfType T]), (mkAny [WithTag a; OfType T]).
    repeat split. apply Predicate_eq_refl.
Qed.

Lemma combinator_eq_normalized_witness :
  to_predicates [PyStr "a"; PyList [PyNone; PyType Param_class]] =
    Ok [WithTag "a"; mkAny [Nothing; OfType Param_class]] /\
  to_predicate (PyBool false) = Ok Nothing /\
  exists c c',
    All [PyStr "a"; PyList [PyNone; PyType Param_class]] = Ok c /\
    All (map PyPredicate [WithTag "a"; mkAny [Nothing; OfType Param_class]])
      = Ok c' /\
    Predicate_eq c c' = true /\
    @hash sample_hashing c = @hash sample_hashing c'.
Proof.
  split; [reflexivity|]. split; [reflexivity|].
  exact (proj1 (proj2
    (@combinator_eq_normalized sample_hashing
       [PyStr "a"; PyList [PyNone; PyType Param_class]]
       [WithTag "a"; mkAny [Nothing; OfType Param_class]]
       (PyBool false) Nothing "a" Param_class eq_refl eq_refl))).
Defined.

(** * Further properties of the predicate algebra *)

(** ** [PathContains] *)

(** X1. [PathContains(key)(path, x)] is true exactly when [key] is an
    element of [path]: the value plays no part, the empty path never
    matches, and a path in two parts matches when one part does. *)
Theorem PathContains_call_iff
    (key : Key) (path path' : PathParts) (x x' : value) :
  (call (PathContains key) path x = true <-> In key path) /\
  call (PathContains key) path x = call (PathContains key) path x' /\
  call (PathContains key) [] x = false /\
  call (PathContains key) (path ++ path')%list x =
    call (PathContains key) path x || call (PathContains key) path' x.
Proof.
  cbn [call]. repeat split.
  - intros H. apply existsb_exists in H. destruct H as [k [Hk E]].
    apply Key_eqb_eq in E. now subst.
  - intros H. apply existsb_exists. exists key. split; [exact H|].
    now apply Key_eqb_eq.
  - apply existsb_app.
Qed.

(** ** [__eq__] is an equivalence *)

Lemma Key_eqb_sym (k k' : Key) : Key_eqb k k' = Key_eqb k' k.
Proof.
  destruct k, k'; cbn; auto using String.eqb_sym, Z.eqb_sym.
Qed.

Lemma pytype_eqb_sym (C D : pytype) : pytype_eqb C D = pytype_eqb D C.
Proof.
  destruct (pytype_eqb C D) eqn:E.
  - apply pytype_eqb_eq in E. subst. symmetry. apply pytype_eqb_refl.
  - destruct (pytype_eqb D C) eqn:E'; [|reflexivity].
    apply pytype_eqb_eq in E'. subst. now rewrite pytype_eqb_refl in E.
Qed.

Lemma tuple_eqb_sym {A : Type} (eqb : A -> A -> bool) (l : list A) :
  Forall (fun a => forall b, eqb a b = eqb b a) l ->
  forall r, tuple_eqb eqb l r = tuple_eqb eqb r l.
Proof.
  induction 1 as [|a l Ha _ IH]; intros [|b r]; cbn; try reflexivity.
  now rewrite Ha, IH.
Qed.

Lemma tuple_eqb_trans {A : Type} (eqb : A -> A -> bool) (l : list A) :
  Forall (fun a => forall b c, eqb a b = true -> eqb b c = true ->
                               eqb a c = true) l ->
  forall r t, tuple_eqb eqb l r = true -> tuple_eqb eqb r t = true ->
              tuple_eqb eqb l t = true.
Proof.
  induction 1 as [|a l Ha _ IH]; intros [|b r] [|c t] H1 H2; cbn in *;
    try discriminate; try reflexivity.
  apply andb_true_iff in H1, H2. destruct H1 as [H1 H1'], H2 as [H2 H2'].
  apply andb_true_iff. split; [now apply (Ha b c) | now apply (IH r t)].
Qed.

Lemma Predicate_eq_sym (p q : Predicate) : Predicate_eq p q = Predicate_eq q p.
Proof.
  revert q. induction p as [tag|key|type|ps IH|ps IH|p IH| | |id fn]
    using Predicate_nested_ind; intros q; destruct q; cbn;
    try reflexivity.
  - apply String.eqb_sym.
  - apply Key_eqb_sym.
  - apply pytype_eqb_sym.
  - now apply tuple_eqb_sym.
  - now apply tuple_eqb_sym.
  - apply IH.
  - apply Nat.eqb_sym.
Qed.

Lemma Predicate_eq_trans (p q r : Predicate) :
  Predicate_eq p q = true -> Predicate_eq q r = true ->
  Predicate_eq p r = true.
Proof.
  revert q r. induction p as [tag|key|type|ps IH|ps IH|p IH| | |id fn]
    using Predicate_nested_ind; intros q r H1 H2;
    destruct q; cbn in H1; try discriminate;
    destruct r; cbn in H2; try discriminate; cbn.
  - apply String.eqb_eq in H1, H2. subst. apply String.eqb_refl.
  - apply Key_eqb_eq in H1, H2. subst. now apply Key_eqb_eq.
  - apply pytype_eqb_eq in H1, H2. subst. apply pytype_eqb_refl.
  - now apply (tuple_eqb_trans Predicate_eq ps IH predicates predicates0).
  - now apply (tuple_eqb_trans Predicate_eq ps IH predicates predicates0).
  - now apply (IH q r).
  - reflexivity.
  - reflexivity.
  - apply Nat.eqb_eq in H1, H2. subst. apply Nat.eqb_refl.
Qed.

(** X2. [==] on predicate objects is an equivalence: reflexive,
    symmetric and transitive, and it never relates instances of two
    different classes. *)
Theorem Predicate_eq_equivalence (p q r : Predicate) :
  Predicate_eq p p = true /\
  Predicate_eq p q = Predicate_eq q p /\
  (Predicate_eq p q = true -> Predicate_eq q r = true ->
   Predicate_eq p r = true) /\
  (Predicate_eq p q = true -> Predicate_class p = Predicate_class q).
Proof.
  split; [apply Predicate_eq_refl|]. split; [apply Predicate_eq_sym|].
  split; [apply Predicate_eq_trans|].
  destruct p, q; cbn; intros H; try discriminate; reflexivity.
Qed.

Lemma Predicate_eq_equivalence_witness :
  Predicate_eq (mkAny [WithTag "a"; mkNot Everything])
               (mkAny [WithTag "a"; mkNot Everything]) = true /\
  Predicate_class (mkAny [WithTag "a"; mkNot Everything]) = Any_class.
Proof.
  split; [reflexivity|].
  exact (proj2 (proj2 (proj2
    (Predicate_eq_equivalence
       (mkAny [WithTag "a"; mkNot Everything])
       (mkAny [WithTag "a"; mkNot Everything]) Nothing))) eq_refl).
Defined.

(** ** Equal predicates select the same pairs *)

Lemma existsb_Forall2 {A : Type} (f g : A -> bool) (l r : list A) :
  Forall2 (fun a b => f a = g b) l r -> existsb f l = existsb g r.
Proof. induction 1 as [|a b l r E _ IH]; cbn; [reflexivity | now rewrite E, IH]. Qed.

Lemma forallb_Forall2 {A : Type} (f g : A -> bool) (l r : list A) :
  Forall2 (fun a b => f a = g b) l r -> forallb f l = forallb g r.
Proof. induction 1 as [|a b l r E _ IH]; cbn; [reflexivity | now rewrite E, IH]. Qed.

Lemma functions_of_In (p : Predicate) (ps : list Predicate)
    (e : nat * (PathParts -> value -> bool)) :
  In p ps -> In e (functions_of p) -> In e (flat_map functions_of ps).
Proof. intros Hp He. apply in_flat_map. now exists p. Qed.

Lemma Predicate_eq_call_seq (path : PathParts) (x : value)
    (ps : list Predicate) :
  Forall (fun p => forall q, same_identity_same_function p q ->
            Predicate_eq p q = true -> call p path x = call q path x) ps ->
  forall qs,
    (forall p q, In p ps -> In q qs -> same_identity_same_function p q) ->
    tuple_eqb Predicate_eq ps qs = true ->
    Forall2 (fun p q => call p path x = call q path x) ps qs.
Proof.
  induction 1 as [|p ps Hp _ IH]; intros [|q qs] Hs He; cbn in He;
    try discriminate; constructor.
  - apply andb_true_iff in He. apply Hp; [|tauto].
    apply Hs; now left.
  - apply andb_true_iff in He. apply IH; [|tauto].
    intros p' q' Hp' Hq'. apply Hs; now right.
Qed.

(** X3. Two predicate objects that are equal select the same pairs:
    when a function object stands for one behaviour, [p == q] gives
    [p(path, x) == q(path, x)] for every path and value. *)
Theorem equal_predicates_same_selection
    (p q : Predicate) (path : PathParts) (x : value)
    (Hfn : same_identity_same_function p q)
    (Heq : Predicate_eq p q = true) :
  call p path x = call q path x.
Proof.
  revert q Hfn Heq.
  induction p as [tag|key|type|ps IH|ps IH|p IH| | |id fn]
    using Predicate_nested_ind; intros q Hs He;
    destruct q; cbn in He; try discriminate.
  - apply String.eqb_eq in He. now subst.
  - apply Key_eqb_eq in He. now subst.
  - apply pytype_eqb_eq in He. now subst.
  - cbn [call]. apply existsb_Forall2.
    apply Predicate_eq_call_seq; [exact IH |
      intros p' q' Hp' Hq' id fn fn' H1 H2;
      apply (Hs id fn fn'); cbn; eauto using functions_of_In | exact He].
  - cbn [call]. apply forallb_Forall2.
    apply Predicate_eq_call_seq; [exact IH |
      intros p' q' Hp' Hq' id fn fn' H1 H2;
      apply (Hs id fn fn'); cbn; eauto using functions_of_In | exact He].
  - cbn [call]. f_equal. apply IH; [|exact He].
    intros id fn fn' H1 H2. now apply (Hs id fn fn').
  - reflexivity.
  - reflexivity.
  - apply Nat.eqb_eq in He. subst. cbn [call].
    apply (Hs id0 fn fn0); now left.
Qed.

Lemma equal_predicates_same_selection_witness :
  same_identity_same_function
    (mkAll [PyFunction 7 is_kernel; OfType Param_class])
    (mkAll [PyFunction 7 is_kernel; OfType Param_class]) /\
  call (mkAll [PyFunction 7 is_kernel; OfType Param_class])
       [KeyStr "dense"; KeyStr "kernel"] (mkValue Param_class None None) =
  call (mkAll [PyFunction 7 is_kernel; OfType Param_class])
       [KeyStr "dense"; KeyStr "kernel"] (mkValue Param_class None None).
Proof.
  assert (H : same_identity_same_function
    (mkAll [PyFunction 7 is_kernel; OfType Param_class])
    (mkAll [PyFunction 7 is_kernel; OfType Param_class])).
  { intros id fn fn' [E|[]] [E'|[]]. inversion E; inversion E'; subst.
    reflexivity. }
  split; [exact H|].
  exact (equal_predicates_same_selection _ _ _ _ H eq_refl).
Defined.

(** ** What [__hash__] does not tell apart *)

Lemma Not_neq (p : Predicate) :
  Predicate_eq (mkNot p) p = false /\ Predicate_eq p (mkNot p) = false.
Proof.
  induction p using Predicate_nested_ind; try (split; reflexivity).
  cbn in *. exact IHp.
Qed.

(** X4. [Any] and [All] hash the tuple of their sub-predicates and [Not]
    hashes its sub-predicate, so [Any(fs)] and [All(fs)] have the same
    hash, and [Not(f)] has the hash of [to_predicate(f)], although these
    objects are never equal. *)
Theorem hash_collisions `{Hashing}
    (filters : list pyobj) (ps : list Predicate)
    (collection_filter : pyobj) (p : Predicate)
    (Hps : to_predicates filters = Ok ps)
    (Hp : to_predicate collection_filter = Ok p) :
  (exists a b, Any filters = Ok a /\ All filters = Ok b /\
               hash a = hash b /\
               Predicate_eq a b = false /\ Predicate_eq b a = false) /\
  (exists n, Not collection_filter = Ok n /\
             hash n = hash p /\
             Predicate_eq n p = false /\ Predicate_eq p n = false).
Proof.
  split.
  - exists (mkAny ps), (mkAll ps). unfold Any, All. rewrite Hps.
    repeat split.
  - exists (mkNot p). unfold Not. rewrite Hp.
    repeat split; apply Not_neq.
Qed.

Lemma hash_collisions_witness :
  to_predicates [PyStr "a"; PyEllipsis] = Ok [WithTag "a"; Everything] /\
  to_predicate (PyType Param_class) = Ok (OfType Param_class) /\
  exists n, Not (PyType Param_class) = Ok n /\
            @hash sample_hashing n = @hash sample_hashing (OfType Param_class) /\
            Predicate_eq n (OfType Param_class) = false /\
            Predicate_eq (OfType Param_class) n = false.
Proof.
  split; [reflexivity|]. split; [reflexivity|].
  exact (proj2 (@hash_collisions sample_hashing
    [PyStr "a"; PyEllipsis] [WithTag "a"; Everything]
    (PyType Param_class) (OfType Param_class) eq_refl eq_refl)).
Defined.

(** ** When the normalization succeeds, and which error it raises *)

Lemma to_predicate_is_Filter (filter : pyobj) :
  forall p, to_predicate filter = Ok p -> is_Filter filter = true.
Proof.
  induction filter as [f Hl Ht Hs|l IH|l IH|l IH] using pyobj_nested_ind;
    intros p Hp.
  - destruct f; try reflexivity; try discriminate Hp.
    + now elim (Hl items).
    + now elim (Ht items).
  - rewrite to_predicate_list in Hp. unfold Any in Hp.
    destruct (to_predicates l) as [ps|] eqn:E; [|discriminate]. clear Hp.
    cbn [is_Filter]. revert ps E.
    induction IH as [|g l Hg _ IHl]; intros ps E; [reflexivity|].
    rewrite to_predicates_cons in E.
    destruct (to_predicate g) as [q|] eqn:Eg; [|discriminate].
    destruct (to_predicates l) as [qs|] eqn:El; [|discriminate].
    cbn. rewrite (Hg q eq_refl). now apply (IHl qs).
  - rewrite to_predicate_tuple in Hp. unfold Any in Hp.
    destruct (to_predicates l) as [ps|] eqn:E; [|discriminate]. clear Hp.
    cbn [is_Filter]. revert ps E.
    induction IH as [|g l Hg _ IHl]; intros ps E; [reflexivity|].
    rewrite to_predicates_cons in E.
    destruct (to_predicate g) as [q|] eqn:Eg; [|discriminate].
    destruct (to_predicates l) as [qs|] eqn:El; [|discriminate].
    cbn. rewrite (Hg q eq_refl). now apply (IHl qs).
  - discriminate Hp.
Qed.

(** X5. [to_predicate] returns a predicate exactly on the objects of the
    declared type [Filter] (a class, a string, a predicate, a boolean,
    [Ellipsis], [None], or a tuple or list of such, at any depth), and
    raises on every other object; [Any], [All] and [Not] succeed exactly
    when each of their arguments is of that type. *)
Theorem to_predicate_succeeds_iff (filter : pyobj) (filters : list pyobj) :
  ((exists p, to_predicate filter = Ok p) <-> is_Filter filter = true) /\
  ((exists e, to_predicate filter = Raise e) <-> is_Filter filter = false) /\
  ((exists a, Any filters = Ok a) <-> forallb is_Filter filters = true) /\
  ((exists a, All filters = Ok a) <-> forallb is_Filter filters = true) /\
  ((exists n, Not filter = Ok n) <-> is_Filter filter = true).
Proof.
  assert (H1 : forall f, (exists p, to_predicate f = Ok p) <->
                         is_Filter f = true).
  { intros f. split.
    - intros [p Hp]. now apply (to_predicate_is_Filter f p).
    - apply to_predicate_total. }
  assert (H2 : (exists ps, to_predicates filters = Ok ps) <->
               forallb is_Filter filters = true).
  { rewrite <- (H1 (PyList filters)). rewrite to_predicate_list. unfold Any.
    split.
    - intros [ps ->]. cbn. eauto.
    - intros [p Hp]. destruct (to_predicates filters) as [ps|]; [eauto|].
      discriminate. }
  split; [apply H1|]. split; [|split; [|split]].
  - split.
    + intros [e He]. destruct (is_Filter filter) eqn:E; [|reflexivity].
      apply H1 in E. destruct E as [p Hp]. congruence.
    + intros E. destruct (to_predicate filter) as [p|e] eqn:Hp; [|eauto].
      assert (is_Filter filter = true) by (apply H1; eauto). congruence.
  - rewrite <- H2. unfold Any. split.
    + intros [a Ha]. destruct (to_predicates filters); [eauto|discriminate].
    + intros [ps ->]. cbn. eauto.
  - rewrite <- H2. unfold All. split.
    + intros [a Ha]. destruct (to_predicates filters); [eauto|discriminate].
    + intros [ps ->]. cbn. eauto.
  - rewrite <- H1. unfold Not. split.
    + intros [n Hn]. destruct (to_predicate filter); [eauto|discriminate].
    + intros [p ->]. cbn. eauto.
Qed.

Lemma to_predicates_app (l1 l2 : list pyobj) :
  to_predicates (l1 ++ l2) =
  (ps <- to_predicates l1 ;; qs <- to_predicates l2 ;; Ok (ps ++ qs)%list).
Proof.
  induction l1 as [|f l1 IH]; cbn [app].
  - cbn. now destruct (to_predicates l2).
  - rewrite !to_predicates_cons. destruct (to_predicate f); [|reflexivity].
    cbn. rewrite IH. destruct (to_predicates l1); [|reflexivity].
    cbn. now destruct (to_predicates l2).
Qed.

(** X6. The arguments are normalized from left to right and the first one
    that raises decides: when the filters before it normalize, [Any],
    [All], and [to_predicate] on the list or the tuple, raise the
    exception of that element, whatever follows it. *)
Theorem first_invalid_filter_raises
    (before after : list pyobj) (ps : list Predicate)
    (bad : pyobj) (e : exception)
    (Hbefore : to_predicates before = Ok ps)
    (Hbad : to_predicate bad = Raise e) :
  Any (before ++ bad :: after) = Raise e /\
  All (before ++ bad :: after) = Raise e /\
  to_predicate (PyList (before ++ bad :: after)) = Raise e /\
  to_predicate (PyTuple (before ++ bad :: after)) = Raise e /\
  Not (PyList (before ++ bad :: after)) = Raise e.
Proof.
  assert (H : to_predicates (before ++ bad :: after) = Raise e).
  { rewrite to_predicates_app, Hbefore, to_predicates_cons, Hbad.
    reflexivity. }
  unfold Not. rewrite to_predicate_list, to_predicate_tuple.
  unfold Any, All. rewrite H. repeat split.
Qed.

Lemma first_invalid_filter_raises_witness :
  to_predicates [PyStr "a"] = Ok [WithTag "a"] /\
  to_predicate (PySet []) =
    Raise (TypeError "unsupported format string passed to set.__format__") /\
  Any ([PyStr "a"] ++ PySet [] :: [PyInt 3]) =
    Raise (TypeError "unsupported format string passed to set.__format__").
Proof.
  split; [reflexivity|]. split; [reflexivity|].
  exact (proj1 (first_invalid_filter_raises [PyStr "a"] [PyInt 3]
    [WithTag "a"] (PySet []) _ eq_refl eq_refl)).
Defined.

(** ** Composition laws of [Any], [All] and [Not] *)

Lemma existsb_Permutation {A : Type} (f : A -> bool) (l r : list A) :
  Permutation l r -> existsb f l = existsb f r.
Proof.
  induction 1 as [|a l r _ IH|a b l|l m r _ IH1 _ IH2]; cbn.
  - reflexivity.
  - now rewrite IH.
  - now destruct (f a), (f b).
  - now rewrite IH1.
Qed.

Lemma forallb_Permutation {A : Type} (f : A -> bool) (l r : list A) :
  Permutation l r -> forallb f l = forallb f r.
Proof.
  induction 1 as [|a l r _ IH|a b l|l m r _ IH1 _ IH2]; cbn.
  - reflexivity.
  - now rewrite IH.
  - now destruct (f a), (f b).
  - now rewrite IH1.
Qed.

Lemma to_predicates_Permutation (fs gs : list pyobj) :
  Permutation fs gs ->
  forall ps, to_predicates fs = Ok ps ->
             exists qs, to_predicates gs = Ok qs /\ Permutation ps qs.
Proof.
  induction 1 as [|f l r _ IH|f g l|l m r _ IH1 _ IH2]; intros ps Hps.
  - exists ps. split; [exact Hps|]. cbn in Hps. inversion Hps. constructor.
  - rewrite to_predicates_cons in Hps.
    destruct (to_predicate f) as [p|] eqn:Ef; [|discriminate].
    destruct (to_predicates l) as [ps'|] eqn:El; [|discriminate].
    cbn in Hps. inversion Hps; subst.
    destruct (IH ps' eq_refl) as [qs [Hq Hperm]].
    exists (p :: qs). rewrite to_predicates_cons, Ef, Hq.
    split; [reflexivity | now constructor].
  - rewrite !to_predicates_cons in Hps.
    destruct (to_predicate g) as [q|] eqn:Eg; [|discriminate].
    destruct (to_predicate f) as [p|] eqn:Ef; [|discriminate].
    destruct (to_predicates l) as [ps'|] eqn:El; [|discriminate].
    cbn in Hps. inversion Hps; subst.
    exists (p :: q :: ps'). rewrite !to_predicates_cons, Ef, Eg, El.
    split; [reflexivity | apply perm_swap].
  - destruct (IH1 ps Hps) as [qs [Hq Hperm]].
    destruct (IH2 qs Hq) as [rs [Hr Hperm']].
    exists rs. split; [exact Hr | now apply perm_trans with qs].
Qed.

(** X7. The order of the arguments shows in [==] but not in the
    selection: when [Any(fs)] is built, [Any] of the same filters in any
    other order is built too and holds of the same pairs, and likewise
    for [All]. *)
Theorem Any_All_order_irrelevant_for_call
    (fs gs : list pyobj) (ps : list Predicate)
    (Hperm : Permutation fs gs)
    (Hps : to_predicates fs = Ok ps) :
  (exists a b, Any fs = Ok a /\ Any gs = Ok b /\
               forall path x, call a path x = call b path x) /\
  (exists a b, All fs = Ok a /\ All gs = Ok b /\
               forall path x, call a path x = call b path x).
Proof.
  destruct (to_predicates_Permutation fs gs Hperm ps Hps) as [qs [Hq Hpq]].
  unfold Any, All. rewrite Hps, Hq. split.
  - exists (mkAny ps), (mkAny qs). repeat split. intros path x.
    cbn [call]. now apply existsb_Permutation.
  - exists (mkAll ps), (mkAll qs). repeat split. intros path x.
    cbn [call]. now apply forallb_Permutation.
Qed.

Lemma Any_All_order_irrelevant_for_call_witness :
  Permutation [PyStr "a"; PyType Param_class] [PyType Param_class; PyStr "a"] /\
  to_predicates [PyStr "a"; PyType Param_class] =
    Ok [WithTag "a"; OfType Param_class] /\
  exists a b, All [PyStr "a"; PyType Param_class] = Ok a /\
              All [PyType Param_class; PyStr "a"] = Ok b /\
              forall path x, call a path x = call b path x.
Proof.
  split; [apply perm_swap|]. split; [reflexivity|].
  exact (proj2 (Any_All_order_irrelevant_for_call
    [PyStr "a"; PyType Param_class] [PyType Param_class; PyStr "a"]
    [WithTag "a"; OfType Param_class] (perm_swap _ _ _) eq_refl)).
Defined.

Lemma Nots_mkNot (fs : list pyobj) (ps : list Predicate) :
  to_predicates fs = Ok ps -> Nots fs = Ok (map mkNot ps).
Proof.
  revert ps. induction fs as [|f fs IH]; intros ps Hps.
  - cbn in Hps. inversion Hps. reflexivity.
  - rewrite to_predicates_cons in Hps.
    destruct (to_predicate f) as [p|] eqn:Ef; [|discriminate].
    destruct (to_predicates fs) as [ps'|] eqn:El; [|discriminate].
    cbn in Hps. inversion Hps; subst. cbn [Nots]. unfold Not at 1.
    rewrite Ef. cbn. now rewrite (IH ps' eq_refl).
Qed.

(** X8. De Morgan: [Not(Any(f1, ..., fn))] holds of the pairs of which
    [All(Not(f1), ..., Not(fn))] holds, and [Not(All(f1, ..., fn))] of
    those of which [Any(Not(f1), ..., Not(fn))] holds. *)
Theorem Not_Any_All_de_morgan
    (fs : list pyobj) (ps : list Predicate)
    (Hps : to_predicates fs = Ok ps) :
  exists any_fs all_fs not_any not_all nots all_nots any_nots,
    Any fs = Ok any_fs /\ All fs = Ok all_fs /\
    Not (PyPredicate any_fs) = Ok not_any /\
    Not (PyPredicate all_fs) = Ok not_all /\
    Nots fs = Ok nots /\
    All (map PyPredicate nots) = Ok all_nots /\
    Any (map PyPredicate nots) = Ok any_nots /\
    forall path x,
      call not_any path x = call all_nots path x /\
      call not_all path x = call any_nots path x.
Proof.
  exists (mkAny ps), (mkAll ps), (mkNot (mkAny ps)), (mkNot (mkAll ps)),
    (map mkNot ps), (mkAll (map mkNot ps)), (mkAny (map mkNot ps)).
  unfold Any, All. rewrite Hps, (Nots_mkNot fs ps Hps).
  rewrite to_predicates_predicates. repeat split; cbn [call].
  - clear Hps. induction ps as [|p ps IH]; cbn; [reflexivity|].
    rewrite negb_orb. now rewrite IH.
  - clear Hps. induction ps as [|p ps IH]; cbn; [reflexivity|].
    rewrite negb_andb. now rewrite IH.
Qed.

Lemma Not_Any_All_de_morgan_witness :
  to_predicates [PyStr "a"; PyType Param_class] =
    Ok [WithTag "a"; OfType Param_class] /\
  exists any_fs all_fs not_any not_all nots all_nots any_nots,
    Any [PyStr "a"; PyType Param_class] = Ok any_fs /\
    All [PyStr "a"; PyType Param_class] = Ok all_fs /\
    Not (PyPredicate any_fs) = Ok not_any /\
    Not (PyPredicate all_fs) = Ok not_all /\
    Nots [PyStr "a"; PyType Param_class] = Ok nots /\
    All (map PyPredicate nots) = Ok all_nots /\
    Any (map PyPredicate nots) = Ok any_nots /\
    forall path x,
      call not_any path x = call all_nots path x /\
      call not_all path x = call any_nots path x.
Proof.
  split; [reflexivity|].
  exact (Not_Any_All_de_morgan [PyStr "a"; PyType Param_class]
           [WithTag "a"; OfType Param_class] eq_refl).
Defined.

Lemma to_predicates_app_inv (l1 l2 : list pyobj) (ps : list Predicate) :
  to_predicates (l1 ++ l2) = Ok ps ->
  exists ps1 ps2, to_predicates l1 = Ok ps1 /\ to_predicates l2 = Ok ps2 /\
                  ps = (ps1 ++ ps2)%list.
Proof.
  rewrite to_predicates_app. intros H.
  destruct (to_predicates l1) as [ps1|]; [|discriminate].
  destruct (to_predicates l2) as [ps2|]; [|discriminate].
  cbn in H. inversion H. now exists ps1, ps2.
Qed.

Lemma to_predicates_insert (l1 l2 : list pyobj) (f : pyobj)
    (ps1 ps2 : list Predicate) (p : Predicate) :
  to_predicates l1 = Ok ps1 -> to_predicates l2 = Ok ps2 ->
  to_predicate f = Ok p ->
  to_predicates (l1 ++ f :: l2) = Ok (ps1 ++ p :: ps2)%list.
Proof.
  intros H1 H2 Hf.
  now rewrite to_predicates_app, H1, to_predicates_cons, Hf, H2.
Qed.

(** X9. A list or a tuple among the arguments of a combinator is a
    disjunction, whatever the combinator: inside [Any] it can be spliced
    into the arguments without changing the selection, while
    [All([f1, ..., fn])] selects what [Any(f1, ..., fn)] selects, and
    [Not([f1, ..., fn])] what [Any(f1, ..., fn)] rejects. *)
Theorem nested_sequence_is_disjunction
    (l1 fs l2 : list pyobj) (ps : list Predicate)
    (Hps : to_predicates (l1 ++ PyList fs :: l2) = Ok ps) :
  (exists a a' b,
     Any (l1 ++ PyList fs :: l2) = Ok a /\
     Any (l1 ++ PyTuple fs :: l2) = Ok a' /\
     Any (l1 ++ fs ++ l2) = Ok b /\
     forall path x, call a path x = call b path x /\
                    call a' path x = call b path x) /\
  (exists c n d,
     All [PyList fs] = Ok c /\ Not (PyList fs) = Ok n /\ Any fs = Ok d /\
     forall path x, call c path x = call d path x /\
                    call n path x = negb (call d path x)).
Proof.
  destruct (to_predicates_app_inv _ _ _ Hps) as (ps1 & ps' & H1 & H' & ->).
  rewrite to_predicates_cons, to_predicate_list in H'. unfold Any in H'.
  destruct (to_predicates fs) as [qs|] eqn:Hfs; [|discriminate].
  destruct (to_predicates l2) as [ps2|] eqn:H2; [|discriminate].
  cbn in H'. inversion H'; subst ps'. clear H'.
  assert (HL : to_predicate (PyList fs) = Ok (mkAny qs))
    by (rewrite to_predicate_list; unfold Any; now rewrite Hfs).
  assert (HT : to_predicate (PyTuple fs) = Ok (mkAny qs))
    by (rewrite to_predicate_tuple; unfold Any; now rewrite Hfs).
  split.
  - exists (mkAny (ps1 ++ mkAny qs :: ps2)), (mkAny (ps1 ++ mkAny qs :: ps2)),
      (mkAny (ps1 ++ qs ++ ps2)).
    unfold Any.
    rewrite (to_predicates_insert l1 l2 (PyList fs) ps1 ps2 _ H1 H2 HL).
    rewrite (to_predicates_insert l1 l2 (PyTuple fs) ps1 ps2 _ H1 H2 HT).
    rewrite !to_predicates_app, H1, Hfs, H2. repeat split; cbn [call];
      rewrite ?existsb_app; cbn [existsb call]; reflexivity.
  - exists (mkAll [mkAny qs]), (mkNot (mkAny qs)), (mkAny qs).
    unfold All, Not, Any. rewrite to_predicates_cons, HL, Hfs.
    repeat split. cbn. apply andb_true_r.
Qed.

Lemma nested_sequence_is_disjunction_witness :
  to_predicates ([PyStr "a"] ++ PyList [PyStr "b"; PyStr "c"] :: []) =
    Ok [WithTag "a"; mkAny [WithTag "b"; WithTag "c"]] /\
  exists c n d,
    All [PyList [PyStr "b"; PyStr "c"]] = Ok c /\
    Not (PyList [PyStr "b"; PyStr "c"]) = Ok n /\
    Any [PyStr "b"; PyStr "c"] = Ok d /\
    forall path x, call c path x = call d path x /\
                   call n path x = negb (call d path x).
Proof.
  split; [reflexivity|].
  exact (proj2 (nested_sequence_is_disjunction
    [PyStr "a"] [PyStr "b"; PyStr "c"] []
    [WithTag "a"; mkAny [WithTag "b"; WithTag "c"]] eq_refl)).
Defined.

(** X10. [None] and [False] are neutral in [Any], and [Ellipsis] and
    [True] in [All]: dropping them does not change the selection.
    [Ellipsis] or [True] among the arguments makes [Any] hold of every
    pair, [None] or [False] makes [All] hold of none.  With one argument,
    [Any(f)] and [All(f)] select what [to_predicate(f)] selects. *)
Theorem Any_All_neutral_absorbing
    (l1 l2 : list pyobj) (ps : list Predicate)
    (collection_filter : pyobj) (p : Predicate) (b : bool)
    (Hps : to_predicates (l1 ++ l2) = Ok ps)
    (Hp : to_predicate collection_filter = Ok p) :
  (exists a a' a0 a1,
     Any (l1 ++ l2) = Ok a /\
     Any (l1 ++ PyNone :: l2) = Ok a' /\
     Any (l1 ++ PyBool false :: l2) = Ok a0 /\
     Any (l1 ++ (if b then PyBool true else PyEllipsis) :: l2) = Ok a1 /\
     forall path x, call a' path x = call a path x /\
                    call a0 path x = call a path x /\
                    call a1 path x = true) /\
  (exists a a' a0 a1,
     All (l1 ++ l2) = Ok a /\
     All (l1 ++ PyEllipsis :: l2) = Ok a' /\
     All (l1 ++ PyBool true :: l2) = Ok a0 /\
     All (l1 ++ (if b then PyBool false else PyNone) :: l2) = Ok a1 /\
     forall path x, call a' path x = call a path x /\
                    call a0 path x = call a path x /\
                    call a1 path x = false) /\
  (exists a a',
     Any [collection_filter] = Ok a /\ All [collection_filter] = Ok a' /\
     forall path x, call a path x = call p path x /\
                    call a' path x = call p path x).
Proof.
  destruct (to_predicates_app_inv _ _ _ Hps) as (ps1 & ps2 & H1 & H2 & ->).
  assert (HE : to_predicate (if b then PyBool true else PyEllipsis)
               = Ok Everything) by (now destruct b).
  assert (HN : to_predicate (if b then PyBool false else PyNone)
               = Ok Nothing) by (now destruct b).
  split; [|split].
  - exists (mkAny (ps1 ++ ps2)), (mkAny (ps1 ++ Nothing :: ps2)),
      (mkAny (ps1 ++ Nothing :: ps2)), (mkAny (ps1 ++ Everything :: ps2)).
    unfold Any. rewrite Hps.
    rewrite (to_predicates_insert l1 l2 PyNone ps1 ps2 Nothing H1 H2 eq_refl).
    rewrite (to_predicates_insert l1 l2 (PyBool false) ps1 ps2 Nothing
               H1 H2 eq_refl).
    rewrite (to_predicates_insert l1 l2 _ ps1 ps2 Everything H1 H2 HE).
    repeat split; cbn [call]; rewrite !existsb_app; cbn [existsb call];
      try reflexivity.
    apply orb_true_r.
  - exists (mkAll (ps1 ++ ps2)), (mkAll (ps1 ++ Everything :: ps2)),
      (mkAll (ps1 ++ Everything :: ps2)), (mkAll (ps1 ++ Nothing :: ps2)).
    unfold All. rewrite Hps.
    rewrite (to_predicates_insert l1 l2 PyEllipsis ps1 ps2 Everything
               H1 H2 eq_refl).
    rewrite (to_predicates_insert l1 l2 (PyBool true) ps1 ps2 Everything
               H1 H2 eq_refl).
    rewrite (to_predicates_insert l1 l2 _ ps1 ps2 Nothing H1 H2 HN).
    repeat split; cbn [call]; rewrite !forallb_app; cbn [forallb call];
      try reflexivity.
    apply andb_false_r.
  - exists (mkAny [p]), (mkAll [p]). unfold Any, All.
    rewrite to_predicates_cons, Hp. repeat split; cbn.
    + apply orb_false_r.
    + apply andb_true_r.
Qed.

Lemma Any_All_neutral_absorbing_witness :
  to_predicates ([PyStr "a"] ++ [PyType Param_class]) =
    Ok [WithTag "a"; OfType Param_class] /\
  to_predicate (PyStr "b") = Ok (WithTag "b") /\
  exists a a',
    Any [PyStr "b"] = Ok a /\ All [PyStr "b"] = Ok a' /\
    forall path x, call a path x = call (WithTag "b") path x /\
                   call a' path x = call (WithTag "b") path x.
Proof.
  split; [reflexivity|]. split; [reflexivity|].
  exact (proj2 (proj2 (Any_All_neutral_absorbing
    [PyStr "a"] [PyType Param_class] [WithTag "a"; OfType Param_class]
    (PyStr "b") (WithTag "b") true eq_refl eq_refl))).
Defined.

(** ** [__repr__] *)

Lemma tuple_eqb_map_where {A B : Type} (eqb : A -> A -> bool) (f : A -> B)
    (ok : A -> bool) (l : list A) :
  Forall (fun a => ok a = true ->
                   forall b, eqb a b = true -> f a = f b) l ->
  forallb ok l = true ->
  forall r, tuple_eqb eqb l r = true -> map f l = map f r.
Proof.
  induction 1 as [|a l Ha _ IH]; intros Hok [|b r] H; cbn in *;
    try discriminate; [reflexivity|].
  apply andb_true_iff in Hok, H.
  destruct Hok as [Hok1 Hok2], H as [H1 H2].
  now rewrite (Ha Hok1 b H1), (IH Hok2 r H2).
Qed.

Lemma Predicate_eq_repr `{Repr} (p : Predicate) :
  path_free p = true ->
  forall q, Predicate_eq p q = true -> repr p = repr q.
Proof.
  induction p as [tag|key|type|ps IH|ps IH|p IH| | |id fn]
    using Predicate_nested_ind; intros Hfree q Hq; destruct q; cbn in Hq;
    try discriminate; cbn [repr].
  - apply String.eqb_eq in Hq. now subst.
  - apply pytype_eqb_eq in Hq. now subst.
  - now rewrite (tuple_eqb_map_where Predicate_eq repr path_free ps IH
                   Hfree predicates).
  - now rewrite (tuple_eqb_map_where Predicate_eq repr path_free ps IH
                   Hfree predicates).
  - now rewrite (IH Hfree q Hq).
  - reflexivity.
  - reflexivity.
  - apply Nat.eqb_eq in Hq. now subst.
Qed.

(** X11. The representation names the class, and away from
    [PathContains] it is canonical for [==]: two instances of classes of
    this module with the same [repr] are of the same class, and equal
    predicate objects in which no [PathContains] occurs have the same
    [repr].  (Keys are left out: [1 == True], and their [repr] differ.) *)
Theorem repr_canonical `{Repr} (p q : Predicate)
    (Hp : Predicate_class p <> function_t)
    (Hq : Predicate_class q <> function_t) :
  (path_free p = true -> Predicate_eq p q = true -> repr p = repr q) /\
  (repr p = repr q -> Predicate_class p = Predicate_class q).
Proof.
  split; [intros Hfree; now apply Predicate_eq_repr|].
  destruct p, q; cbn [repr Predicate_class]; intros E;
    try reflexivity; try (now elim Hp); try (now elim Hq);
    cbn in E; discriminate E.
Qed.

Lemma repr_canonical_witness :
  Predicate_class (mkAny [WithTag "a"; mkNot Nothing]) <> function_t /\
  path_free (mkAny [WithTag "a"; mkNot Nothing]) = true /\
  Predicate_eq (mkAny [WithTag "a"; mkNot Nothing])
               (mkAny [WithTag "a"; mkNot Nothing]) = true /\
  @repr sample_repr (mkAny [WithTag "a"; mkNot Nothing]) =
    "Any(WithTag('a'), Not(Nothing()))".
Proof.
  assert (H : Predicate_class (mkAny [WithTag "a"; mkNot Nothing])
              <> function_t) by discriminate.
  split; [exact H|]. split; [reflexivity|]. split; [reflexivity|].
  exact (proj1 (@repr_canonical sample_repr
    (mkAny [WithTag "a"; mkNot Nothing])
    (mkAny [WithTag "a"; mkNot Nothing]) H H) eq_refl eq_refl).
Defined.

(** * Properties of the input pipeline *)

Open Scope list_scope.

(** ** Byte strings *)

Lemma bytes_eqb_eq (s t : bytes) : bytes_eqb s t = true <-> s = t.
Proof.
  unfold bytes_eqb. rewrite tuple_eqb_Forall2. split.
  - induction 1 as [|c d s t E _ IH]; [reflexivity|].
    apply Byte.byte_dec_bl in E. now subst.
  - intros ->. induction t as [|c t IH]; constructor; [|exact IH].
    now apply Byte.byte_dec_lb.
Qed.

Lemma bytes_eqb_refl (s : bytes) : bytes_eqb s s = true.
Proof. now apply bytes_eqb_eq. Qed.

Lemma bytes_eqb_neq (s t : bytes) : bytes_eqb s t = false <-> s <> t.
Proof.
  rewrite <- bytes_eqb_eq. destruct (bytes_eqb s t); split; congruence.
Qed.

Lemma lstrip_decompose (s : bytes) :
  exists t, s = t ++ lstrip s /\ forallb isspace t = true.
Proof.
  induction s as [|c s [t [E Ht]]]; [now exists []|].
  cbn [lstrip]. destruct (isspace c) eqn:Ec.
  - exists (c :: t). cbn. rewrite Ec, Ht. split; [now f_equal | reflexivity].
  - now exists [].
Qed.

Lemma rstrip_decompose (s : bytes) :
  exists t, s = rstrip s ++ t /\ forallb isspace t = true.
Proof.
  unfold rstrip. destruct (lstrip_decompose (rev s)) as [t [E Ht]].
  exists (rev t). split.
  - rewrite <- rev_app_distr, <- E. symmetry. apply rev_involutive.
  - rewrite forallb_forall in *. intros c Hc. apply Ht. now apply in_rev.
Qed.

(** ** [whitespace_tokenize] *)

Lemma split_from_tokens (s : bytes) :
  forall word,
    forallb (fun c => negb (isspace c)) word = true ->
    Forall (fun t => t <> [] /\ forallb (fun c => negb (isspace c)) t = true)
           (split_from word s) /\
    concat (split_from word s) =
      word ++ filter (fun c => negb (isspace c)) s.
Proof.
  induction s as [|c s IH]; intros word Hw.
  - cbn. destruct word as [|w word]; cbn.
    + split; [constructor | reflexivity].
    + split; [|now rewrite !app_nil_r].
      constructor; [|constructor]. split; [discriminate | exact Hw].
  - cbn [split_from filter]. destruct (isspace c) eqn:Ec; cbn [negb].
    + destruct (IH [] eq_refl) as [IH1 IH2]. destruct word as [|w word].
      * split; [exact IH1 | exact IH2].
      * split.
        -- constructor; [|exact IH1]. split; [discriminate | exact Hw].
        -- cbn [concat]. now rewrite IH2.
    + assert (Hw' : forallb (fun c => negb (isspace c)) (word ++ [c]) = true).
      { rewrite forallb_app, Hw. cbn. now rewrite Ec. }
      destruct (IH (word ++ [c]) Hw') as [IH1 IH2].
      split; [exact IH1|]. rewrite IH2. now rewrite <- app_assoc.
Qed.

Lemma split_from_trailing_space (s : bytes) (c : Byte.byte) :
  isspace c = true ->
  forall word, split_from word (s ++ [c]) = split_from word s.
Proof.
  intros Hc. induction s as [|d s IH]; intros word.
  - cbn. rewrite Hc. now destruct word.
  - cbn [app split_from]. destruct (isspace d).
    + destruct word; now rewrite IH.
    + apply IH.
Qed.

Lemma split_from_trailing_spaces (t : bytes) :
  forallb isspace t = true ->
  forall s word, split_from word (s ++ t) = split_from word s.
Proof.
  induction t as [|c t IH]; intros Ht s word.
  - now rewrite app_nil_r.
  - cbn in Ht. apply andb_true_iff in Ht. destruct Ht as [Hc Ht].
    change (s ++ c :: t) with (s ++ [c] ++ t). rewrite app_assoc.
    rewrite (IH Ht). now apply split_from_trailing_space.
Qed.

Lemma split_from_leading_spaces (t : bytes) :
  forallb isspace t = true ->
  forall s, split_from [] (t ++ s) = split_from [] s.
Proof.
  induction t as [|c t IH]; intros Ht s; [reflexivity|].
  cbn in Ht. apply andb_true_iff in Ht. destruct Ht as [Hc Ht].
  cbn. rewrite Hc. now apply IH.
Qed.

Lemma bytes_split_strip (s : bytes) :
  bytes_split (bytes_strip s) = bytes_split s.
Proof.
  unfold bytes_split, bytes_strip.
  destruct (lstrip_decompose s) as [t [E Ht]].
  destruct (rstrip_decompose (lstrip s)) as [u [E' Hu]].
  rewrite E at 2. rewrite (split_from_leading_spaces t Ht).
  rewrite E' at 2. now rewrite (split_from_trailing_spaces u Hu).
Qed.

Lemma whitespace_tokenize_nonspace (s : bytes) (t : bytes) :
  In t (whitespace_tokenize s) ->
  t <> [] /\ forallb (fun c => negb (isspace c)) t = true.
Proof.
  intros Ht. pose proof (proj1 (split_from_tokens s [] eq_refl)) as H.
  rewrite Forall_forall in H. now apply H.
Qed.

Lemma split_from_run (t : bytes) :
  forallb (fun c => negb (isspace c)) t = true ->
  forall word, word ++ t <> [] -> split_from word t = [word ++ t].
Proof.
  induction t as [|c t IH]; intros Ht word Hne.
  - rewrite app_nil_r in *. cbn. destruct word; [now elim Hne | reflexivity].
  - cbn in Ht. apply andb_true_iff in Ht. destruct Ht as [Hc Ht].
    apply negb_true_iff in Hc. cbn [split_from]. rewrite Hc.
    rewrite (IH Ht (word ++ [c])).
    + now rewrite <- app_assoc.
    + destruct word; discriminate.
Qed.

Lemma split_from_separator (u v : bytes) (c : Byte.byte) :
  isspace c = true ->
  forall word,
    split_from word (u ++ c :: v) = split_from word u ++ split_from [] v.
Proof.
  intros Hc. induction u as [|d u IH]; intros word.
  - cbn. rewrite Hc. now destruct word.
  - cbn [app split_from]. destruct (isspace d).
    + destruct word; [apply IH | cbn; f_equal; apply IH].
    + apply IH.
Qed.

Lemma first_whitespace (s : bytes) :
  forallb (fun c => negb (isspace c)) s = true \/
  exists u c v, s = u ++ c :: v /\ isspace c = true.
Proof.
  induction s as [|d s IH]; [now left|].
  destruct (isspace d) eqn:Ed.
  - right. now exists [], d, s.
  - destruct IH as [IH | (u & c & v & -> & Hc)].
    + left. cbn. now rewrite Ed.
    + right. now exists (d :: u), c, v.
Qed.

(** X12. [whitespace_tokenize] returns the maximal runs of bytes that are
    not whitespace.  A run of such bytes, not empty, is one token, and a
    whitespace byte separates the tokens before it from the tokens after
    it; these two facts, with the empty result on the empty input, hold
    of no other function.  So no token is empty or holds a whitespace
    byte, the tokens put together are the input without its whitespace,
    there is no token exactly when the input is all whitespace, and
    stripping the sentence first, as [get_tokens] and [tokenize] do,
    changes nothing. *)
Theorem whitespace_tokenize_tokens (s : bytes) :
  Forall (fun t => t <> [] /\ forallb (fun c => negb (isspace c)) t = true)
         (whitespace_tokenize s) /\
  concat (whitespace_tokenize s) = filter (fun c => negb (isspace c)) s /\
  (whitespace_tokenize s = [] <-> forallb isspace s = true) /\
  tokenize s = whitespace_tokenize s /\
  (forall t, t <> [] -> forallb (fun c => negb (isspace c)) t = true ->
             whitespace_tokenize t = [t]) /\
  (forall u c v, isspace c = true ->
     whitespace_tokenize (u ++ c :: v) =
     whitespace_tokenize u ++ whitespace_tokenize v) /\
  (forall f : bytes -> list bytes,
     f [] = [] ->
     (forall t, t <> [] -> forallb (fun c => negb (isspace c)) t = true ->
                f t = [t]) ->
     (forall u c v, isspace c = true -> f (u ++ c :: v) = f u ++ f v) ->
     f s = whitespace_tokenize s).
Proof.
  assert (Hrun : forall t, t <> [] ->
            forallb (fun c => negb (isspace c)) t = true ->
            whitespace_tokenize t = [t]).
  { intros t Hne Ht. exact (split_from_run t Ht [] Hne). }
  assert (Hsep : forall u c v, isspace c = true ->
            whitespace_tokenize (u ++ c :: v) =
            whitespace_tokenize u ++ whitespace_tokenize v).
  { intros u c v Hc. exact (split_from_separator u v c Hc []). }
  unfold tokenize.
  destruct (split_from_tokens s [] eq_refl) as [H1 H2].
  split; [exact H1|]. split; [exact H2|].
  split; [|split; [apply bytes_split_strip | split; [exact Hrun|]]].
  - unfold whitespace_tokenize, bytes_split in *. split.
    + intros E. rewrite E in H2. cbn in H2.
      apply forallb_forall. intros c Hc.
      destruct (isspace c) eqn:Ec; [reflexivity|].
      assert (Hin : In c (filter (fun c => negb (isspace c)) s)).
      { apply filter_In. split; [exact Hc|]. now rewrite Ec. }
      rewrite <- H2 in Hin. destruct Hin.
    + intros Hs. rewrite <- (app_nil_l s).
      now rewrite (split_from_trailing_spaces s Hs [] []).
  - split; [exact Hsep|].
    intros f Hnil Hfrun Hfsep.
    assert (Hall : forall n r, length r <= n -> f r = whitespace_tokenize r).
    { induction n as [|n IH]; intros r Hr.
      - destruct r; [exact Hnil | cbn in Hr; lia].
      - destruct (first_whitespace r) as [Hr' | (u & c & v & -> & Hc)].
        + destruct r as [|d r]; [exact Hnil|].
          rewrite Hfrun, Hrun; try reflexivity; try discriminate; exact Hr'.
        + rewrite length_app in Hr. cbn in Hr.
          rewrite (Hfsep u c v Hc), (Hsep u c v Hc).
          rewrite (IH u), (IH v); [reflexivity | lia | lia]. }
    now apply (Hall (length s)).
Qed.

Lemma whitespace_tokenize_tokens_witness :
  bytes_of "film" <> [] /\
  forallb (fun c => negb (isspace c)) (bytes_of "film") = true /\
  isspace space = true /\
  whitespace_tokenize (bytes_of "film") = [bytes_of "film"] /\
  whitespace_tokenize (bytes_of "a" ++ space :: bytes_of " film ") =
    whitespace_tokenize (bytes_of "a") ++
    whitespace_tokenize (bytes_of " film ").
Proof.
  assert (Hne : bytes_of "film" <> []) by discriminate.
  split; [exact Hne|]. split; [reflexivity|]. split; [reflexivity|].
  destruct (whitespace_tokenize_tokens []) as (_ & _ & _ & _ & Hrun & Hsep & _).
  split.
  - exact (Hrun (bytes_of "film") Hne eq_refl).
  - exact (Hsep (bytes_of "a") space (bytes_of " film ") eq_refl).
Defined.

(** ** Ordered dictionaries *)

Lemma dict_get_set_same {V : Type} (d : OrderedDict V) (key : bytes) (v : V) :
  dict_get (dict_set d key v) key = Some v.
Proof.
  induction d as [|[k w] d IH]; cbn.
  - now rewrite bytes_eqb_refl.
  - destruct (bytes_eqb k key) eqn:E; cbn; now rewrite E.
Qed.

Lemma dict_get_set_other {V : Type} (d : OrderedDict V) (key key' : bytes)
    (v : V) :
  key <> key' -> dict_get (dict_set d key v) key' = dict_get d key'.
Proof.
  intros Hne. induction d as [|[k w] d IH]; cbn.
  - apply bytes_eqb_neq in Hne. now rewrite Hne.
  - destruct (bytes_eqb k key) eqn:E; cbn.
    + apply bytes_eqb_eq in E. subst k.
      apply bytes_eqb_neq in Hne. now rewrite Hne.
    + now rewrite IH.
Qed.

Lemma dict_get_In {V : Type} (d : OrderedDict V) (key : bytes) :
  In key (dict_keys d) <-> dict_get d key <> None.
Proof.
  induction d as [|[k w] d IH]; cbn.
  - split; [tauto | congruence].
  - destruct (bytes_eqb k key) eqn:E.
    + apply bytes_eqb_eq in E. split; [discriminate | auto].
    + apply bytes_eqb_neq in E. rewrite <- IH. tauto.
Qed.

Lemma dict_get_None {V : Type} (d : OrderedDict V) (key : bytes) :
  ~ In key (dict_keys d) <-> dict_get d key = None.
Proof.
  rewrite dict_get_In. destruct (dict_get d key) as [v|].
  - split; intros H; [elim H; discriminate | discriminate].
  - split; intros H; [reflexivity | intros H'; now apply H'].
Qed.

Lemma dict_set_new {V : Type} (d : OrderedDict V) (key : bytes) (v : V) :
  ~ In key (dict_keys d) -> dict_set d key v = d ++ [(key, v)].
Proof.
  induction d as [|[k w] d IH]; cbn; intros Hn; [reflexivity|].
  destruct (bytes_eqb k key) eqn:E.
  - apply bytes_eqb_eq in E. tauto.
  - rewrite IH; tauto.
Qed.

Lemma dict_set_keys_present {V : Type} (d : OrderedDict V) (key : bytes)
    (v : V) :
  In key (dict_keys d) -> dict_keys (dict_set d key v) = dict_keys d.
Proof.
  unfold dict_keys. induction d as [|[k w] d IH]; cbn; intros Hin; [tauto|].
  destruct (bytes_eqb k key) eqn:E; cbn; [reflexivity|].
  apply bytes_eqb_neq in E. f_equal. apply IH. tauto.
Qed.

Lemma dict_set_keys {V : Type} (d : OrderedDict V) (key : bytes) (v : V) :
  (In key (dict_keys d) /\ dict_keys (dict_set d key v) = dict_keys d) \/
  (~ In key (dict_keys d) /\
   dict_keys (dict_set d key v) = dict_keys d ++ [key]).
Proof.
  destruct (in_dec (list_eq_dec Byte.byte_eq_dec) key (dict_keys d))
    as [Hin | Hn].
  - left. split; [exact Hin | now apply dict_set_keys_present].
  - right. split; [exact Hn|]. rewrite dict_set_new by exact Hn.
    unfold dict_keys. now rewrite map_app.
Qed.

Lemma dict_set_keys_In {V : Type} (d : OrderedDict V) (key : bytes) (v : V)
    (t : bytes) :
  In t (dict_keys (dict_set d key v)) <-> In t (dict_keys d) \/ t = key.
Proof.
  destruct (dict_set_keys d key v) as [[Hin ->] | [Hn ->]].
  - split; [tauto|]. intros [H | ->]; assumption.
  - rewrite in_app_iff. cbn. split; intros [H | H]; auto.
    + destruct H as [H | []]; auto.
Qed.

Lemma dict_set_keys_NoDup {V : Type} (d : OrderedDict V) (key : bytes)
    (v : V) :
  NoDup (dict_keys d) -> NoDup (dict_keys (dict_set d key v)).
Proof.
  intros Hd. destruct (dict_set_keys d key v) as [[Hin ->] | [Hn ->]];
    [exact Hd|].
  apply NoDup_app; [exact Hd | repeat constructor; tauto |].
  intros a Ha [<- | []]. tauto.
Qed.

Lemma set_contains_In (tokens : list bytes) (token : bytes) :
  set_contains tokens token = true <-> In token tokens.
Proof.
  unfold set_contains. rewrite existsb_exists. split.
  - intros [t [Ht E]]. apply bytes_eqb_eq in E. now subst.
  - intros H. exists token. split; [exact H | apply bytes_eqb_refl].
Qed.

(** ** [get_tokens] *)

Lemma counter_update_keys (tokens : list bytes) :
  forall counter : OrderedDict nat,
    (forall t, In t (dict_keys (counter_update counter tokens)) <->
               In t (dict_keys counter) \/ In t tokens) /\
    (NoDup (dict_keys counter) ->
     NoDup (dict_keys (counter_update counter tokens))).
Proof.
  unfold counter_update.
  induction tokens as [|token tokens IH]; intros counter; cbn [fold_left].
  - split; [|auto]. intros t. cbn. tauto.
  - destruct (IH (dict_set counter token
        (match dict_get counter token with Some n => n | None => 0 end + 1)))
      as [IH1 IH2].
    split.
    + intros t. rewrite IH1, dict_set_keys_In. cbn. split.
      * intros [[H | ->] | H]; auto.
      * intros [H | [<- | H]]; auto.
    + intros Hd. apply IH2. now apply dict_set_keys_NoDup.
Qed.

Lemma get_tokens_dataset (ds : list bytes) :
  forall counter : OrderedDict nat,
    let counter' :=
      fold_left
        (fun counter sentence =>
           counter_update counter (whitespace_tokenize (bytes_strip sentence)))
        ds counter in
    (forall t, In t (dict_keys counter') <->
               In t (dict_keys counter) \/
               exists sentence, In sentence ds /\
                                In t (whitespace_tokenize sentence)) /\
    (NoDup (dict_keys counter) -> NoDup (dict_keys counter')).
Proof.
  induction ds as [|sentence ds IH]; intros counter; cbn [fold_left].
  - split; [|auto]. intros t. split; [tauto|].
    intros [H | [s [[] _]]]. exact H.
  - destruct (counter_update_keys (whitespace_tokenize (bytes_strip sentence))
                counter) as [U1 U2].
    destruct (IH (counter_update counter
                    (whitespace_tokenize (bytes_strip sentence))))
      as [IH1 IH2].
    split.
    + intros t. rewrite IH1, U1.
      unfold whitespace_tokenize at 1. rewrite bytes_split_strip.
      fold (whitespace_tokenize sentence).
      split.
      * intros [[H | H] | [s [Hs Ht]]]; [now left | right | right].
        -- exists sentence. split; [now left | exact H].
        -- exists s. split; [now right | exact Ht].
      * intros [H | [s [[<- | Hs] Ht]]]; [now left; left | now left; right |].
        right. now exists s.
    + intros Hd. apply IH2. now apply U2.
Qed.

Lemma get_tokens_datasets (datasets : list (list bytes)) :
  forall counter : OrderedDict nat,
    let counter' :=
      fold_left
        (fun counter ds =>
           fold_left
             (fun counter sentence =>
                counter_update counter
                  (whitespace_tokenize (bytes_strip sentence)))
             ds counter)
        datasets counter in
    (forall t, In t (dict_keys counter') <->
               In t (dict_keys counter) \/
               exists ds sentence, In ds datasets /\ In sentence ds /\
                                   In t (whitespace_tokenize sentence)) /\
    (NoDup (dict_keys counter) -> NoDup (dict_keys counter')).
Proof.
  induction datasets as [|ds datasets IH]; intros counter; cbn [fold_left].
  - split; [|auto]. intros t. split; [tauto|].
    intros [H | [ds [s [[] _]]]]. exact H.
  - destruct (get_tokens_dataset ds counter) as [D1 D2].
    destruct (IH (fold_left
        (fun counter sentence =>
           counter_update counter (whitespace_tokenize (bytes_strip sentence)))
        ds counter)) as [IH1 IH2].
    split.
    + intros t. rewrite IH1, D1. split.
      * intros [[H | [s [Hs Ht]]] | [ds' [s [Hd [Hs Ht]]]]].
        -- now left.
        -- right. exists ds, s. split; [now left | tauto].
        -- right. exists ds', s. split; [now right | tauto].
      * intros [H | [ds' [s [[<- | Hd] [Hs Ht]]]]].
        -- now left; left.
        -- left; right. now exists s.
        -- right. now exists ds', s.
    + intros Hd. apply IH2. now apply D2.
Qed.

Lemma get_tokens_nonspace (datasets : list (list bytes)) (t : bytes) :
  In t (get_tokens datasets) ->
  forallb (fun c => negb (isspace c)) t = true.
Proof.
  unfold get_tokens. intros Ht.
  apply (proj1 (get_tokens_datasets datasets [])) in Ht.
  destruct Ht as [[] | [ds [s [_ [_ Ht]]]]].
  now apply (whitespace_tokenize_nonspace s).
Qed.

(** X13. [get_tokens] returns the tokens of the sentences of the
    datasets, each once: a token is in the set exactly when
    [whitespace_tokenize] returns it for one of the sentences, so no
    element is empty or holds a whitespace byte. *)
Theorem get_tokens_elements (datasets : list (list bytes)) (t : bytes) :
  (In t (get_tokens datasets) <->
     exists ds sentence, In ds datasets /\ In sentence ds /\
                         In t (whitespace_tokenize sentence)) /\
  (set_contains (get_tokens datasets) t = true <->
     In t (get_tokens datasets)) /\
  NoDup (get_tokens datasets) /\
  Forall (fun t => t <> [] /\ forallb (fun c => negb (isspace c)) t = true)
         (get_tokens datasets).
Proof.
  unfold get_tokens. destruct (get_tokens_datasets datasets []) as [H1 H2].
  cbn zeta in H1, H2.
  split; [|split; [apply set_contains_In | split]].
  - rewrite H1. cbn. tauto.
  - apply H2. constructor.
  - apply Forall_forall. intros u Hu. apply H1 in Hu.
    destruct Hu as [[] | [ds [s [_ [_ Hu]]]]].
    now apply (whitespace_tokenize_nonspace s).
Qed.

(** ** [save_vocab] and [load_vocab] *)

Lemma readlines_from_line (t : bytes) :
  forallb (fun c => negb (Byte.eqb c newline)) t = true ->
  forall line rest,
    readlines_from line (t ++ newline :: rest) =
    (line ++ t ++ [newline]) :: readlines_from [] rest.
Proof.
  induction t as [|c t IH]; intros Ht line rest.
  - reflexivity.
  - cbn in Ht. apply andb_true_iff in Ht. destruct Ht as [Hc Ht].
    apply negb_true_iff in Hc. cbn [app readlines_from]. rewrite Hc.
    rewrite (IH Ht). now rewrite <- app_assoc.
Qed.

Lemma readlines_save (tokens : list bytes) :
  Forall (fun t => forallb (fun c => negb (Byte.eqb c newline)) t = true)
         tokens ->
  readlines (concat (map (fun token => token ++ [newline]) tokens)) =
  map (fun token => token ++ [newline]) tokens.
Proof.
  unfold readlines. induction 1 as [|t tokens Ht _ IH]; [reflexivity|].
  cbn [map concat]. rewrite <- app_assoc. cbn [app].
  rewrite (readlines_from_line t Ht). now rewrite IH.
Qed.

Lemma lstrip_newlines_decompose (s : bytes) :
  exists t, s = t ++ lstrip_newlines s /\
            forallb (fun c => Byte.eqb c newline) t = true.
Proof.
  induction s as [|c s [t [E Ht]]]; [now exists []|].
  cbn [lstrip_newlines]. destruct (Byte.eqb c newline) eqn:Ec.
  - exists (c :: t). cbn. rewrite Ec, Ht. split; [now f_equal | reflexivity].
  - now exists [].
Qed.

Lemma rstrip_newlines_line (t : bytes) :
  forallb (fun c => negb (Byte.eqb c newline)) t = true ->
  rstrip_newlines (t ++ [newline]) = t /\ rstrip_newlines t = t.
Proof.
  intros Ht. unfold rstrip_newlines. rewrite rev_app_distr. cbn.
  assert (H : lstrip_newlines (rev t) = rev t).
  { destruct (rev t) as [|c r] eqn:E; [reflexivity|]. cbn.
    assert (Hc : In c t) by (apply in_rev; rewrite E; now left).
    rewrite forallb_forall in Ht. apply Ht in Hc.
    apply negb_true_iff in Hc. now rewrite Hc. }
  rewrite H. split; apply rev_involutive.
Qed.

Lemma enumerate_from_app {A : Type} (l1 l2 : list A) (start : nat) :
  combine (seq start (length (l1 ++ l2))) (l1 ++ l2) =
  combine (seq start (length l1)) l1 ++
  combine (seq (start + length l1) (length l2)) l2.
Proof.
  revert start. induction l1 as [|a l1 IH]; intros start; cbn.
  - now rewrite Nat.add_0_r.
  - f_equal. rewrite IH. now rewrite Nat.add_succ_r.
Qed.

(** The loop of [load_vocab], from line number [start], on distinct new
    tokens. *)
Lemma load_fresh_lines (tokens : list bytes) :
  forall (vocab : OrderedDict nat) (start : nat),
    NoDup (dict_keys vocab ++ tokens) ->
    Forall (fun t => forallb (fun c => negb (Byte.eqb c newline)) t = true)
           tokens ->
    fold_left
      (fun vocab '(i, token) => dict_set vocab (rstrip_newlines token) i)
      (combine (seq start (length tokens))
               (map (fun token => token ++ [newline]) tokens))
      vocab =
    vocab ++ combine tokens (seq start (length tokens)).
Proof.
  induction tokens as [|t tokens IH]; intros vocab start Hd Hn.
  - cbn. now rewrite app_nil_r.
  - inversion Hn as [|t' l' Ht Hn']; subst. cbn [length seq map combine fold_left].
    rewrite (proj1 (rstrip_newlines_line t Ht)).
    assert (Hfresh : ~ In t (dict_keys vocab)).
    { intros Hin. apply NoDup_remove_2 in Hd. apply Hd.
      apply in_or_app. now left. }
    rewrite (dict_set_new vocab t start Hfresh).
    rewrite IH; [| |exact Hn'].
    + now rewrite <- app_assoc.
    + unfold dict_keys. rewrite map_app. cbn. rewrite <- app_assoc. exact Hd.
Qed.

Lemma load_vocab_lines (tokens : list bytes) :
  NoDup tokens ->
  Forall (fun t => forallb (fun c => negb (Byte.eqb c newline)) t = true)
         tokens ->
  load_vocab (concat (map (fun token => token ++ [newline]) tokens)) =
  combine tokens (seq 0 (length tokens)).
Proof.
  intros Hd Hn. unfold load_vocab, enumerate.
  rewrite (readlines_save _ Hn). rewrite length_map.
  exact (load_fresh_lines tokens [] 0 Hd Hn).
Qed.

Lemma combine_keys_values {V : Type} (d : OrderedDict V) :
  combine (dict_keys d) (map snd d) = d.
Proof.
  unfold dict_keys. induction d as [|[k v] d IH]; cbn; [reflexivity|].
  now rewrite IH.
Qed.

(** X14. Saving a vocabulary and loading the file gives the vocabulary
    back, when no token holds a line feed and the indices are the
    positions [0, 1, ...] of the tokens. *)
Theorem load_save_vocab (vocab : OrderedDict nat)
    (Hkeys : NoDup (dict_keys vocab))
    (Hnewline :
       Forall (fun t => forallb (fun c => negb (Byte.eqb c newline)) t = true)
              (dict_keys vocab))
    (Hindices : map snd vocab = seq 0 (length vocab)) :
  load_vocab (save_vocab vocab) = vocab.
Proof.
  unfold save_vocab. rewrite (load_vocab_lines _ Hkeys Hnewline).
  unfold dict_keys at 2. rewrite length_map, <- Hindices.
  apply combine_keys_values.
Qed.

Lemma load_save_vocab_witness :
  NoDup (dict_keys [(bytes_of "<pad>", 0); (bytes_of "the", 1)]) /\
  load_vocab (save_vocab [(bytes_of "<pad>", 0); (bytes_of "the", 1)]) =
    [(bytes_of "<pad>", 0); (bytes_of "the", 1)].
Proof.
  assert (H : NoDup (dict_keys [(bytes_of "<pad>", 0); (bytes_of "the", 1)])).
  { repeat constructor; cbn; intuition discriminate. }
  split; [exact H|].
  apply (load_save_vocab [(bytes_of "<pad>", 0); (bytes_of "the", 1)] H).
  - repeat constructor.
  - reflexivity.
Defined.

Lemma load_lines_app (vocab : OrderedDict nat) (start : nat)
    (l1 l2 : list bytes) :
  load_lines vocab start (l1 ++ l2) =
  load_lines (load_lines vocab start l1) (start + length l1) l2.
Proof.
  unfold load_lines. now rewrite enumerate_from_app, fold_left_app.
Qed.

Lemma load_lines_cons (vocab : OrderedDict nat) (start : nat)
    (line : bytes) (lines : list bytes) :
  load_lines vocab start (line :: lines) =
  load_lines (dict_set vocab (rstrip_newlines line) start) (S start) lines.
Proof. reflexivity. Qed.

Lemma load_lines_other (token : bytes) (lines : list bytes) :
  Forall (fun l => rstrip_newlines l <> token) lines ->
  forall vocab start,
    dict_get (load_lines vocab start lines) token = dict_get vocab token.
Proof.
  induction 1 as [|line lines Hl _ IH]; intros vocab start; [reflexivity|].
  rewrite load_lines_cons, IH. now apply dict_get_set_other.
Qed.

Lemma load_lines_keys (lines : list bytes) :
  forall vocab start,
    (forall t, In t (dict_keys (load_lines vocab start lines)) <->
               In t (dict_keys vocab) \/
               exists l, In l lines /\ rstrip_newlines l = t) /\
    (NoDup (dict_keys vocab) ->
     NoDup (dict_keys (load_lines vocab start lines))).
Proof.
  induction lines as [|line lines IH]; intros vocab start.
  - split; [|auto]. intros t. cbn. split; [tauto|].
    intros [H | [l [[] _]]]. exact H.
  - rewrite load_lines_cons.
    destruct (IH (dict_set vocab (rstrip_newlines line) start) (S start))
      as [IH1 IH2].
    split.
    + intros t. rewrite IH1, dict_set_keys_In. split.
      * intros [[H | ->] | [l [Hl E]]]; [now left | right | right].
        -- exists line. split; [now left | reflexivity].
        -- exists l. split; [now right | exact E].
      * intros [H | [l [[<- | Hl] E]]]; [now left; left | left; right | right].
        -- now symmetry.
        -- now exists l.
    + intros Hd. apply IH2. now apply dict_set_keys_NoDup.
Qed.

(** X15. [load_vocab] gives each token the number of the last line that
    holds it: the keys are the lines without their line feed, each once,
    and a token that is on no line is not in the vocabulary. *)
Theorem load_vocab_last_line
    (content : bytes) (before after : list bytes) (line token : bytes)
    (Hlines : readlines content = before ++ line :: after)
    (Hline : rstrip_newlines line = token)
    (Hafter : Forall (fun l => rstrip_newlines l <> token) after) :
  dict_get (load_vocab content) token = Some (length before) /\
  NoDup (dict_keys (load_vocab content)) /\
  (forall t, In t (dict_keys (load_vocab content)) <->
             exists l, In l (readlines content) /\ rstrip_newlines l = t) /\
  (forall t, (forall l, In l (readlines content) -> rstrip_newlines l <> t) ->
             dict_get (load_vocab content) t = None).
Proof.
  change (load_vocab content) with (load_lines [] 0 (readlines content)).
  destruct (load_lines_keys (readlines content) [] 0) as [K1 K2].
  assert (K : forall t, In t (dict_keys (load_lines [] 0 (readlines content)))
          <-> exists l, In l (readlines content) /\ rstrip_newlines l = t).
  { intros t. rewrite K1. cbn. tauto. }
  split; [|split; [apply K2; constructor | split; [exact K|]]].
  - rewrite Hlines, load_lines_app, load_lines_cons.
    rewrite (load_lines_other token after Hafter). subst token.
    apply dict_get_set_same.
  - intros t Ht. apply dict_get_None. rewrite K. intros [l [Hl E]].
    now apply (Ht l).
Qed.

Lemma load_vocab_last_line_witness :
  readlines (bytes_of "a" ++ newline :: bytes_of "b" ++ newline ::
             bytes_of "a" ++ newline :: bytes_of "c") =
    [bytes_of "a" ++ [newline]; bytes_of "b" ++ [newline]] ++
    (bytes_of "a" ++ [newline]) :: [bytes_of "c"] /\
  dict_get (load_vocab (bytes_of "a" ++ newline :: bytes_of "b" ++ newline ::
                        bytes_of "a" ++ newline :: bytes_of "c"))
           (bytes_of "a") = Some 2.
Proof.
  split; [reflexivity|].
  refine (proj1 (load_vocab_last_line
    (bytes_of "a" ++ newline :: bytes_of "b" ++ newline ::
     bytes_of "a" ++ newline :: bytes_of "c")
    [bytes_of "a" ++ [newline]; bytes_of "b" ++ [newline]] [bytes_of "c"]
    (bytes_of "a" ++ [newline]) (bytes_of "a") eq_refl eq_refl _)).
  repeat constructor. discriminate.
Defined.

(** ** [get_glove_embeddings] *)

Lemma vocab_add_length (vocab : OrderedDict nat) (token : bytes) :
  (In token (dict_keys vocab) /\
   length (vocab_add vocab token) = length vocab) \/
  (~ In token (dict_keys vocab) /\
   vocab_add vocab token = vocab ++ [(token, length vocab)]).
Proof.
  unfold vocab_add.
  destruct (dict_set_keys vocab token (length vocab)) as [[Hin E] | [Hn E]].
  - left. split; [exact Hin|].
    apply (f_equal (@length bytes)) in E. unfold dict_keys in E.
    now rewrite !length_map in E.
  - right. split; [exact Hn | now apply dict_set_new].
Qed.


Lemma vocab_add_all_fresh (tokens : list bytes) :
  forall vocab,
    NoDup (dict_keys vocab ++ tokens) ->
    fold_left vocab_add tokens vocab =
    vocab ++ combine tokens (seq (length vocab) (length tokens)).
Proof.
  induction tokens as [|t tokens IH]; intros vocab Hd; cbn [fold_left].
  - cbn. now rewrite app_nil_r.
  - destruct (vocab_add_length vocab t) as [[Hin _] | [_ E]].
    + apply NoDup_remove_2 in Hd. elim Hd. apply in_or_app. now left.
    + rewrite E, IH.
      * rewrite length_app. cbn [length combine seq].
        rewrite <- app_assoc. cbn. now rewrite Nat.add_1_r.
      * unfold dict_keys. rewrite map_app. cbn. now rewrite <- app_assoc.
Qed.


Lemma special_tokens_loop `{Numpy} (seed : Z) (glove_dim : nat)
    (specials : list bytes) :
  forall vectors vocab,
    exists vectors',
      fold_left (special_token seed glove_dim) specials (vectors, vocab) =
        (vectors ++ vectors', fold_left vocab_add specials vocab) /\
      length vectors' = length specials /\
      (vectors = [] ->
       specials <> [] ->
       nth_error vectors' 0 = Some (random_uniform seed 0 glove_dim)).
Proof.
  induction specials as [|t specials IH]; intros vectors vocab.
  - exists []. cbn. rewrite app_nil_r. repeat split. intros _ Hs. now elim Hs.
  - cbn [fold_left special_token].
    destruct (IH (vectors ++ [random_uniform seed (length vectors) glove_dim])
                 (vocab_add vocab t)) as [vs [E [Hl _]]].
    exists (random_uniform seed (length vectors) glove_dim :: vs).
    rewrite E, <- app_assoc. cbn. repeat split.
    + now rewrite Hl.
    + intros ->. reflexivity.
Qed.

Lemma glove_lines_loop `{Numpy} (sst_tokens : list bytes) (glove_dim : nat)
    (lines : list bytes) :
  forall vectors vocab vectors' vocab',
    glove_lines sst_tokens glove_dim (vectors, vocab) lines =
      Returns (vectors', vocab') ->
    exists added,
      vectors' = vectors ++ added /\
      length added = length (glove_tokens sst_tokens glove_dim lines) /\
      vocab' = fold_left vocab_add
                 (glove_tokens sst_tokens glove_dim lines) vocab.
Proof.
  induction lines as [|line lines IH]; intros vectors vocab vectors' vocab' Hr.
  - cbn in Hr. inversion Hr; subst. exists []. now rewrite app_nil_r.
  - cbn [glove_lines] in Hr. unfold glove_tokens. cbn [flat_map].
    fold (glove_tokens sst_tokens glove_dim lines).
    unfold glove_line in Hr.
    destruct (bytes_rsplit (bytes_strip line) glove_dim) as [|token fields];
      [discriminate|].
    destruct (set_contains sst_tokens token).
    + destruct (array_float32 fields) as [vector|]; [|discriminate].
      destruct (IH _ _ _ _ Hr) as [added [E1 [E2 E3]]].
      exists (vector :: added). rewrite E1, <- app_assoc.
      cbn. now rewrite E2, E3.
    + destruct (IH _ _ _ _ Hr) as [added [E1 [E2 E3]]].
      exists added. now rewrite E1, E2, E3.
Qed.

Lemma get_glove_embeddings_inv `{Numpy}
    (datasets : list (list bytes)) (glove_file : bytes) (glove_dim : nat)
    (specials : list bytes) (seed : Z) (cache : bool)
    (vocab : OrderedDict nat) (embed : ndarray) (written : option bytes) :
  get_glove_embeddings datasets glove_file glove_dim specials seed cache =
    Returns (vocab, embed, written) ->
  exists vectors,
    array_stack vectors = Some embed /\
    length vectors =
      length (assigned_tokens datasets glove_file glove_dim specials) /\
    nth_error vectors 0 = Some (zeros_like (random_uniform seed 0 glove_dim)) /\
    vocab = fold_left vocab_add
              (assigned_tokens datasets glove_file glove_dim specials) [] /\
    written = (if cache then Some (save_vocab vocab) else None).
Proof.
  unfold get_glove_embeddings, assigned_tokens. intros Hr.
  destruct (special_tokens_loop seed glove_dim specials [] [])
    as [vs [E [Hl H0]]].
  destruct (fold_left _ specials _) as [vs0 vocab0] eqn:F in Hr.
  pose proof (eq_trans (eq_sym F) E) as G. cbn [app] in G.
  inversion G; subst vs0 vocab0. clear F G.
  destruct vs as [|padding vs]; [discriminate|].
  assert (Hs : specials <> []) by (intros ->; discriminate).
  specialize (H0 eq_refl Hs). cbn in H0. inversion H0; subst padding.
  destruct (glove_lines (get_tokens datasets) glove_dim _ _)
    as [[vectors vocab']|] eqn:Hg; [|discriminate].
  destruct (array_stack vectors) as [embed'|] eqn:Hstack; [|discriminate].
  inversion Hr; subst. clear Hr.
  destruct (glove_lines_loop _ _ _ _ _ _ _ Hg) as [added [E1 [E2 E3]]].
  exists vectors. split; [exact Hstack|]. subst vectors.
  repeat split.
  - cbn [length app]. rewrite !length_app, E2. cbn in Hl. lia.
  - now rewrite fold_left_app.
Qed.



Lemma glove_tokens_In (sst_tokens : list bytes) (glove_dim : nat)
    (lines : list bytes) (t : bytes) :
  In t (glove_tokens sst_tokens glove_dim lines) -> In t sst_tokens.
Proof.
  unfold glove_tokens. rewrite in_flat_map. intros [line [_ Hin]].
  destruct (bytes_rsplit (bytes_strip line) glove_dim) as [|token fields];
    [destruct Hin|].
  destruct (set_contains sst_tokens token) eqn:E; [|destruct Hin].
  destruct Hin as [<- | []]. now apply set_contains_In.
Qed.

Lemma combine_seq_keys (tokens : list bytes) (start : nat) :
  dict_keys (combine tokens (seq start (length tokens))) = tokens /\
  map snd (combine tokens (seq start (length tokens))) =
    seq start (length tokens) /\
  length (combine tokens (seq start (length tokens))) = length tokens.
Proof.
  unfold dict_keys. revert start.
  induction tokens as [|t tokens IH]; intros start; cbn; [easy|].
  destruct (IH (S start)) as (-> & -> & ->). easy.
Qed.

Lemma nonspace_no_newline (t : bytes) :
  forallb (fun c => negb (isspace c)) t = true ->
  forallb (fun c => negb (Byte.eqb c newline)) t = true.
Proof.
  rewrite !forallb_forall. intros H c Hc. specialize (H c Hc).
  destruct (Byte.eqb c newline) eqn:E; [|reflexivity].
  apply Byte.byte_dec_bl in E. subst c. discriminate H.
Qed.

(** X17. The cached vocabulary loads back: when no token was assigned
    twice and no special token holds a line feed, [load_vocab] on the
    [vocab.txt] that [get_glove_embeddings] wrote returns the vocabulary
    that [get_glove_embeddings] returned. *)
Theorem get_glove_embeddings_cache_loads `{Numpy}
    (datasets : list (list bytes)) (glove_file : bytes) (glove_dim : nat)
    (specials : list bytes) (seed : Z) (cache : bool)
    (vocab : OrderedDict nat) (embed : ndarray) (vocab_txt : bytes)
    (Hret : get_glove_embeddings datasets glove_file glove_dim specials
              seed cache = Returns (vocab, embed, Some vocab_txt))
    (Hdistinct : NoDup (assigned_tokens datasets glove_file glove_dim specials))
    (Hnewline :
       Forall (fun t => forallb (fun c => negb (Byte.eqb c newline)) t = true)
              specials) :
  load_vocab vocab_txt = vocab.
Proof.
  destruct (get_glove_embeddings_inv _ _ _ _ _ _ _ _ _ Hret)
    as [vectors (_ & _ & _ & Hvocab & Hw)].
  destruct cache; [|discriminate]. inversion Hw; subst vocab_txt. clear Hw.
  rewrite (vocab_add_all_fresh _ [] Hdistinct) in Hvocab. cbn in Hvocab.
  destruct (combine_seq_keys
    (assigned_tokens datasets glove_file glove_dim specials) 0)
    as (Hk & Hv & Hl).
  rewrite <- Hvocab in Hk. unfold save_vocab. rewrite Hk.
  rewrite load_vocab_lines; [now symmetry | exact Hdistinct |].
  unfold assigned_tokens. apply Forall_app. split; [exact Hnewline|].
  apply Forall_forall. intros t Ht. apply glove_tokens_In in Ht.
  apply nonspace_no_newline. now apply (get_tokens_nonspace datasets).
Qed.

Lemma get_glove_embeddings_cache_loads_witness :
  NoDup (assigned_tokens [[bytes_of "the film "; bytes_of " a film"]]
           sample_glove_file 2 default_specials) /\
  load_vocab
    (save_vocab (combine (default_specials ++ [bytes_of "the"; bytes_of "film"])
                         (seq 0 6))) =
  combine (default_specials ++ [bytes_of "the"; bytes_of "film"]) (seq 0 6).
Proof.
  assert (Hd : NoDup (assigned_tokens [[bytes_of "the film "; bytes_of " a film"]]
                        sample_glove_file 2 default_specials)).
  { vm_compute. repeat constructor; cbn; intuition discriminate. }
  split; [exact Hd|].
  apply (@get_glove_embeddings_cache_loads sample_numpy
    [[bytes_of "the film "; bytes_of " a film"]] sample_glove_file 2
    default_specials 42 true _
    [bytes_of "0.1"; bytes_of "0.2"; bytes_of "0.5"; bytes_of "0.6"] _
    eq_refl Hd).
  repeat constructor.
Defined.

Lemma bytes_strip_blank (line : bytes) :
  forallb isspace line = true -> bytes_strip line = [].
Proof.
  intros Hb. unfold bytes_strip.
  assert (E : lstrip line = []).
  { induction line as [|c line IH]; [reflexivity|].
    cbn in Hb. apply andb_true_iff in Hb. destruct Hb as [Hc Hb].
    cbn. rewrite Hc. now apply IH. }
  now rewrite E.
Qed.

Lemma glove_lines_blank `{Numpy} (sst_tokens : list bytes) (glove_dim : nat)
    (line : bytes) (after : list bytes) :
  forallb isspace line = true ->
  forall before state,
    (forall state',
       glove_lines sst_tokens glove_dim state before = Returns state' ->
       glove_lines sst_tokens glove_dim state (before ++ line :: after) =
         Raises IndexError) /\
    exists e,
      glove_lines sst_tokens glove_dim state (before ++ line :: after) =
        Raises e.
Proof.
  intros Hb.
  assert (Hline : forall state,
    glove_line sst_tokens glove_dim state line = Raises IndexError).
  { intros [vectors vocab]. unfold glove_line.
    now rewrite (bytes_strip_blank line Hb). }
  induction before as [|l before IH]; intros state.
  - cbn [app glove_lines]. rewrite Hline. split; [reflexivity | eauto].
  - cbn [app glove_lines].
    destruct (glove_line sst_tokens glove_dim state l) as [state1|e].
    + apply IH.
    + split; [discriminate | eauto].
Qed.

(** X18. [get_glove_embeddings] raises and returns nothing when the list
    of special tokens is empty ([vectors[0]] does not exist), whatever
    the GloVe file; and, whatever the special tokens, when the GloVe file
    has a line of whitespace only: there [parts[0]] does not exist, and
    the error is an [IndexError] unless an earlier line raised. *)
Theorem get_glove_embeddings_raises `{Numpy}
    (datasets : list (list bytes)) (glove_file : bytes) (glove_dim : nat)
    (specials : list bytes) (seed : Z) (cache : bool) :
  get_glove_embeddings datasets glove_file glove_dim [] seed cache =
    Raises IndexError /\
  (forall (before after : list bytes) (line : bytes),
     readlines glove_file = before ++ line :: after ->
     forallb isspace line = true ->
     (exists e,
        get_glove_embeddings datasets glove_file glove_dim specials seed cache
        = Raises e) /\
     (forall state state',
        glove_lines (get_tokens datasets) glove_dim state before =
          Returns state' ->
        glove_lines (get_tokens datasets) glove_dim state
          (readlines glove_file) = Raises IndexError)).
Proof.
  split; [reflexivity|]. intros before after line Hlines Hblank. split.
  - unfold get_glove_embeddings.
    destruct (fold_left _ specials _) as [[|padding vectors] vocab];
      [eauto|].
    rewrite Hlines.
    destruct (proj2 (glove_lines_blank (get_tokens datasets) glove_dim
                line after Hblank before (zeros_like padding :: vectors, vocab)))
      as [e ->].
    eauto.
  - intros state state' Hb. rewrite Hlines.
    exact (proj1 (glove_lines_blank (get_tokens datasets) glove_dim
                    line after Hblank before state) state' Hb).
Qed.

Lemma get_glove_embeddings_raises_witness :
  readlines (bytes_of "the 0.1 0.2" ++ newline :: newline ::
             bytes_of "film 0.5 0.6") =
    [bytes_of "the 0.1 0.2" ++ [newline]] ++ [newline] ::
    [bytes_of "film 0.5 0.6"] /\
  forallb isspace [newline] = true /\
  exists e,
    @get_glove_embeddings sample_numpy [[bytes_of "the film"]]
      (bytes_of "the 0.1 0.2" ++ newline :: newline :: bytes_of "film 0.5 0.6")
      2 default_specials 42 false = Raises e.
Proof.
  split; [reflexivity|]. split; [reflexivity|].
  exact (proj1 (proj2 (@get_glove_embeddings_raises sample_numpy
    [[bytes_of "the film"]]
    (bytes_of "the 0.1 0.2" ++ newline :: newline :: bytes_of "film 0.5 0.6")
    2 default_specials 42 false)
    [bytes_of "the 0.1 0.2" ++ [newline]] [bytes_of "film 0.5 0.6"] [newline]
    eq_refl eq_refl)).
Defined.

(** ** The pre-processing *)

Lemma dict_get_combine_seq (tokens : list bytes) (t : bytes) :
  forall start i,
    dict_get (combine tokens (seq start (length tokens))) t = Some i ->
    start <= i < start + length tokens.
Proof.
  induction tokens as [|u tokens IH]; intros start i; cbn; [discriminate|].
  destruct (bytes_eqb u t).
  - intros E. inversion E. lia.
  - intros E. apply IH in E. lia.
Qed.

(** X19. With the vocabulary of [get_glove_embeddings] on the default
    special tokens, no token assigned twice: [<pad>], [<unk>], [<s>] and
    [</s>] have the indices 0, 1, 2 and 3, and an example is turned into
    the index of [<s>], one index per token of its sentence, and the
    index of [</s>]; its length is the number of tokens plus two, and
    each index is the number of a row of the embedding matrix, a token
    outside the vocabulary getting the index of [<unk>]. *)
Theorem preprocess_example_rows `{Numpy}
    (datasets : list (list bytes)) (glove_file : bytes) (glove_dim : nat)
    (seed : Z) (cache : bool)
    (vocab : OrderedDict nat) (embed : ndarray) (written : option bytes)
    (ex : example)
    (Hret : get_glove_embeddings datasets glove_file glove_dim
              default_specials seed cache = Returns (vocab, embed, written))
    (Hdistinct :
       NoDup (assigned_tokens datasets glove_file glove_dim default_specials)) :
  dict_get vocab (bytes_of "<pad>") = Some 0 /\
  special_indices vocab = Returns (1, 2, 3) /\
  exists vectors,
    array_stack vectors = Some embed /\
    processed_sentence (preprocess_example vocab 1 2 3 ex) =
      2 :: encode vocab 1 (whitespace_tokenize (example_sentence ex)) ++ [3] /\
    processed_length (preprocess_example vocab 1 2 3 ex) =
      length (whitespace_tokenize (example_sentence ex)) + 2 /\
    Forall (fun i => i < length vectors)
           (processed_sentence (preprocess_example vocab 1 2 3 ex)) /\
    (forall t, In t (whitespace_tokenize (example_sentence ex)) ->
               ~ In t (dict_keys vocab) -> encode vocab 1 [t] = [1]) /\
    processed_label (preprocess_example vocab 1 2 3 ex) = [example_label ex] /\
    processed_idx (preprocess_example vocab 1 2 3 ex) = example_idx ex.
Proof.
  destruct (get_glove_embeddings_inv _ _ _ _ _ _ _ _ _ Hret)
    as [vectors (Hstack & Hlen & _ & Hvocab & _)].
  rewrite (vocab_add_all_fresh _ [] Hdistinct) in Hvocab. cbn [app length] in Hvocab.
  set (tokens := assigned_tokens datasets glove_file glove_dim default_specials)
    in *.
  assert (Hrange : forall t i, dict_get vocab t = Some i -> i < length vectors).
  { intros t i E. rewrite Hvocab in E. apply dict_get_combine_seq in E.
    rewrite Hlen. lia. }
  assert (Hfour : 4 <= length vectors).
  { rewrite Hlen. unfold tokens, assigned_tokens. rewrite length_app. cbn. lia. }
  assert (Hspecial : dict_get vocab (bytes_of "<pad>") = Some 0 /\
                     special_indices vocab = Returns (1, 2, 3)).
  { rewrite Hvocab. unfold tokens, assigned_tokens. split; reflexivity. }
  destruct Hspecial as [Hpad Hidx].
  split; [exact Hpad|]. split; [exact Hidx|].
  exists vectors. split; [exact Hstack|].
  unfold preprocess_example, tf_wrap_sequence.
  cbn [processed_sentence processed_length processed_label processed_idx].
  unfold tokenize, whitespace_tokenize. rewrite bytes_split_strip.
  fold (whitespace_tokenize (example_sentence ex)).
  repeat split.
  - cbn [app length]. unfold encode. rewrite length_app, length_map. cbn. lia.
  - cbn [app]. constructor; [lia|]. apply Forall_app. split.
    + unfold encode. apply Forall_forall. intros i Hi.
      apply in_map_iff in Hi. destruct Hi as [t [E _]].
      destruct (dict_get vocab t) as [j|] eqn:Ej; subst i.
      * now apply (Hrange t).
      * lia.
    + constructor; [lia | constructor].
  - intros t _ Hn. apply dict_get_None in Hn. cbn. now rewrite Hn.
Qed.

Lemma preprocess_example_rows_witness :
  NoDup (assigned_tokens [[bytes_of "the film "; bytes_of " a film"]]
           sample_glove_file 2 default_specials) /\
  processed_sentence
    (preprocess_example
       (combine (default_specials ++ [bytes_of "the"; bytes_of "film"])
                (seq 0 6))
       1 2 3 (mkExample 0 (bytes_of " a film ") 1)) = [2; 1; 5; 3].
Proof.
  assert (Hd : NoDup (assigned_tokens [[bytes_of "the film "; bytes_of " a film"]]
                        sample_glove_file 2 default_specials)).
  { vm_compute. repeat constructor; cbn; intuition discriminate. }
  split; [exact Hd|].
  destruct (@preprocess_example_rows sample_numpy
    [[bytes_of "the film "; bytes_of " a film"]] sample_glove_file 2 42 true
    _ _ _ (mkExample 0 (bytes_of " a film ") 1) eq_refl Hd)
    as (_ & _ & vectors & _ & Hs & _).
  exact Hs.
Defined.
